(** * convert.py: Markdown with YAML front matter to Confluence storage format

    A shallow embedding of [src/convert.py] and the properties of its
    front-matter split, its renderer callbacks and its page layout. *)

From Stdlib Require Import List NArith Bool Lia String Ascii DecimalString.
From stdpp Require Import gmap.
Import ListNotations.

Local Open Scope N_scope.

(** ** Text

    A Python [str] is a sequence of Unicode code points. *)

Abbreviation str := (list N).

(** Literals of the source are written as Rocq strings in which an
    apostrophe stands for the double-quote character (no literal of
    [convert.py] contains an apostrophe). *)
Definition lit_char (a : ascii) : N :=
  let n := N_of_ascii a in if n =? 39 then 34 else n.

Fixpoint lit (s : string) : str :=
  match s with
  | EmptyString => []
  | String a s' => lit_char a :: lit s'
  end.
Arguments lit s%_string.

Definition NL : N := 10.

(** [ch in s] for a single character. *)
Definition contains (c : N) (s : str) : bool := existsb (N.eqb c) s.

(** Truth value of a [str]: the empty string is false. *)
Definition str_truthy (s : str) : bool :=
  match s with [] => false | _ :: _ => true end.

(** [str.isspace] for one code point, as [str.strip()] uses it. *)
Definition isspace (c : N) : bool :=
  ((9 <=? c) && (c <=? 13)) || ((28 <=? c) && (c <=? 32))
  || (c =? 133) || (c =? 160) || (c =? 5760)
  || ((8192 <=? c) && (c <=? 8202))
  || (c =? 8232) || (c =? 8233) || (c =? 8239) || (c =? 8287) || (c =? 12288).

Fixpoint lstrip (s : str) : str :=
  match s with
  | [] => []
  | c :: s' => if isspace c then lstrip s' else s
  end.

Definition rstrip (s : str) : str := rev (lstrip (rev s)).

(** [s.strip()] *)
Definition strip (s : str) : str := rstrip (lstrip s).

(** [s.split(sep)] for a one-character separator: every occurrence splits. *)
Fixpoint split_on (sep : N) (s : str) : list str :=
  match s with
  | [] => [[]]
  | c :: s' =>
      if c =? sep then [] :: split_on sep s'
      else match split_on sep s' with
           | [] => [[c]]
           | p :: ps => (c :: p) :: ps
           end
  end.

(** [sep.join(parts)] *)
Fixpoint join (sep : str) (parts : list str) : str :=
  match parts with
  | [] => []
  | [p] => p
  | p :: ps => p ++ sep ++ join sep ps
  end.

(** [post.readlines()]: the text cut after every newline, each line keeping
    its terminator; the text is what the file layer delivers, line ends
    already translated to a newline. *)
Fixpoint readlines (s : str) : list str :=
  match s with
  | [] => []
  | c :: s' =>
      if c =? NL then [c] :: readlines s'
      else match readlines s' with
           | [] => [[c]]
           | l :: ls => (c :: l) :: ls
           end
  end.

(** ** Exceptions *)

Inductive exn : Set :=
  ValueError | TypeError | AttributeError | KeyError | IndexError | YAMLError.

Inductive result (A : Type) : Type :=
| Ok (a : A)
| Raise (e : exn).
Arguments Ok {A} a.
Arguments Raise {A} e.

#[global] Instance result_ret : MRet result := fun A a => Ok a.
#[global] Instance result_bind : MBind result := fun A B k r =>
  match r with
  | Ok a => k a
  | Raise e => Raise e
  end.

(** ** Front matter split *)

Definition YAML_BOUNDARY : str := lit "---".

(** The three locals of [parse]. *)
Record parse_state : Type := ParseState {
  raw_yaml : str;
  markdown : str;
  in_yaml : bool
}.

Definition parse_init : parse_state :=
  {| raw_yaml := []; markdown := []; in_yaml := true |}.

(** One iteration of the loop of [parse]. *)
Definition parse_line (st : parse_state) (line : str) : parse_state :=
  let accumulate :=
    if in_yaml st
    then {| raw_yaml := raw_yaml st ++ line; markdown := markdown st;
            in_yaml := in_yaml st |}
    else {| raw_yaml := raw_yaml st; markdown := markdown st ++ line;
            in_yaml := in_yaml st |} in
  if bool_decide (strip line = YAML_BOUNDARY) then
    if in_yaml st && str_truthy (raw_yaml st)
    then {| raw_yaml := raw_yaml st; markdown := markdown st;
            in_yaml := false |}
    else accumulate
  else accumulate.

(** The whole loop over the lines of the post. *)
Definition parse_lines (lines : list str) : parse_state :=
  fold_left parse_line lines parse_init.

(** The split that [parse] performs: metadata buffer and trimmed body. *)
Definition split_front_matter (text : str) : str * str :=
  let st := parse_lines (readlines text) in
  (raw_yaml st, strip (markdown st)).

(** Input helper for examples: the given lines, each ended by a newline. *)
Definition text_of_lines (ls : list str) : str :=
  concat (map (fun l => l ++ [NL]) ls).

(** ** [str.format]

    Replacement fields of the templates are either [{}] (next positional
    argument) or [{name}] (keyword argument); doubled braces stand for one
    brace.  Conversions, format specifications and attribute access occur in
    no template of [convert.py] and are not modelled. *)

Definition LBRACE : N := 123.
Definition RBRACE : N := 125.

Fixpoint kwargs_get (name : str) (kwargs : list (str * str)) : option str :=
  match kwargs with
  | [] => None
  | (k, v) :: rest => if bool_decide (k = name) then Some v
                      else kwargs_get name rest
  end.

(** Value of one replacement field and the next automatic index. *)
Definition field_value (name : str) (auto : nat)
    (args : list str) (kwargs : list (str * str)) : result (str * nat) :=
  match name with
  | [] => match nth_error args auto with
          | Some v => Ok (v, S auto)
          | None => Raise IndexError
          end
  | _ :: _ => match kwargs_get name kwargs with
              | Some v => Ok (v, auto)
              | None => Raise KeyError
              end
  end.

(** The scan of the template: [field] is [Some acc] inside a replacement
    field, [acc] holding the reversed name read so far. *)
Fixpoint format_from (t : str) (field : option str) (auto : nat)
    (args : list str) (kwargs : list (str * str)) : result str :=
  match t with
  | [] => match field with
          | None => Ok []
          | Some _ => Raise ValueError
          end
  | c :: t' =>
      match field with
      | None =>
          if c =? LBRACE then
            match t' with
            | [] => Raise ValueError
            | c' :: t'' =>
                if c' =? LBRACE
                then out ← format_from t'' None auto args kwargs;
                     Ok (LBRACE :: out)
                else format_from t' (Some []) auto args kwargs
            end
          else if c =? RBRACE then
            match t' with
            | [] => Raise ValueError
            | c' :: t'' =>
                if c' =? RBRACE
                then out ← format_from t'' None auto args kwargs;
                     Ok (RBRACE :: out)
                else Raise ValueError
            end
          else out ← format_from t' None auto args kwargs; Ok (c :: out)
      | Some acc =>
          if c =? RBRACE then
            '(v, auto') ← field_value (rev acc) auto args kwargs;
            out ← format_from t' None auto' args kwargs;
            Ok (v ++ out)
          else if c =? LBRACE then Raise ValueError
          else format_from t' (Some (c :: acc)) auto args kwargs
      end
  end.

(** [template.format(...)] with positional and keyword arguments. *)
Definition format (template : str) (args : list str)
    (kwargs : list (str * str)) : result str :=
  format_from template None 0 args kwargs.

(** ** [textwrap.dedent] *)

Definition is_blank (c : N) : bool := (c =? 32) || (c =? 9).

Fixpoint indent_of (l : str) : str :=
  match l with
  | [] => []
  | c :: l' => if is_blank c then c :: indent_of l' else []
  end.

Fixpoint common_prefix (a b : str) : str :=
  match a, b with
  | x :: a', y :: b' => if x =? y then x :: common_prefix a' b' else []
  | _, _ => []
  end.

Definition remove_prefix (p l : str) : str :=
  if bool_decide (firstn (List.length p) l = p)
  then skipn (List.length p) l else l.

(** Lines made of blanks only become empty, the longest common indentation
    of the other lines is the margin, and the margin is removed from the
    start of every line that has it. *)
Definition dedent (text : str) : str :=
  let lines := map (fun l => if forallb is_blank l then [] else l)
                   (split_on NL text) in
  let indents := map indent_of (List.filter str_truthy lines) in
  let margin := match indents with
                | [] => []
                | i :: rest => fold_left common_prefix rest i
                end in
  join [NL] (map (remove_prefix margin) lines).

(** ** Templates of the renderer *)

(** The literal that [layout] hands to [textwrap.dedent] for the table of contents. *)
Definition toc_literal : str := lit "
            <h1>Table of Contents</h1>
            <p><ac:structured-macro ac:name='toc' ac:schema-version='1'>
                <ac:parameter ac:name='exclude'>^(Authors|Table of Contents)$</ac:parameter>
                <!-- <ac:parameter ac:name='outline'>true</ac:parameter> -->
            </ac:structured-macro></p>".

(** The literal that [layout] hands to [textwrap.dedent] for one column. *)
Definition column_literal : str := lit "
            <ac:structured-macro ac:name='column' ac:schema-version='1'>
                <ac:parameter ac:name='width'>{width}</ac:parameter>
                <ac:rich-text-body>{content}</ac:rich-text-body>
            </ac:structured-macro>".

(** [author_template] of [render_authors] (not dedented). *)
Definition author_literal : str := lit "<ac:structured-macro ac:name='profile-picture' ac:schema-version='1'>
                <ac:parameter ac:name='User'><ri:user ri:userkey='{user_key}' /></ac:parameter>
            </ac:structured-macro>&nbsp;
            <ac:link><ri:user ri:userkey='{user_key}' /></ac:link>".

(** The literal that [block_code] hands to [textwrap.dedent]; its first line break is escaped in the source. *)
Definition code_literal : str := lit "            <ac:structured-macro ac:name='code' ac:schema-version='1'>
                <ac:parameter ac:name='language'>{l}</ac:parameter>
                <ac:plain-text-body><![CDATA[{c}]]></ac:plain-text-body>
            </ac:structured-macro>
        ".

(** ** Values of the front matter *)

(** The values the renderer reads from the front matter, as far as the
    module can tell them apart: [None]; a boolean; any other scalar that
    cannot be iterated (a number, a date), which the module only tests for
    truth and which is therefore known by its truth value; a string; and a
    sequence or other collection, known by the text of the items
    it yields. *)
Inductive pyval : Type :=
| PyNone
| PyBool (b : bool)
| PyScalar (truth : bool)
| PyStr (s : str)
| PyList (l : list str).

(** What [yaml.load] returns for a document: [None] for an empty one, a
    mapping, or a scalar or sequence ([DocOther]), which has no [get]. *)
Inductive document : Type :=
| DocNone
| DocMapping (m : gmap str pyval)
| DocOther (v : pyval).

(** Truth value of a front-matter value. *)
Definition truthy (v : pyval) : bool :=
  match v with
  | PyNone => false
  | PyBool b => b
  | PyScalar truth => truth
  | PyStr s => str_truthy s
  | PyList l => match l with [] => false | _ :: _ => true end
  end.

(** [for user_key in v]: a list yields its items, a string its characters,
    [None], booleans and the other scalars are not iterable. *)
Definition iterate (v : pyval) : result (list str) :=
  match v with
  | PyList l => Ok l
  | PyStr s => Ok (map (fun c => [c]) s)
  | PyNone | PyBool _ | PyScalar _ => Raise TypeError
  end.

(** [front_matter.get(key, default)] *)
Definition dict_get (d : gmap str pyval) (key : str) (dflt : pyval) : pyval :=
  default dflt (d !! key).

(** ** The renderer *)

(** The instance attributes of [ConfluenceRenderer]. *)
Record renderer : Type := Renderer {
  attachments : list str;
  authors : pyval;
  has_toc : bool;
  sidebar : pyval
}.

(** [ConfluenceRenderer.__init__] *)
Definition new_renderer (authors0 sidebar0 : pyval) : renderer :=
  {| attachments := [];
     authors := match authors0 with PyNone => PyList [] | _ => authors0 end;
     has_toc := false;
     sidebar := sidebar0 |}.

(** [mapM] for [result]: the first exception wins. *)
Fixpoint traverse {A B} (f : A -> result B) (l : list A) : result (list B) :=
  match l with
  | [] => Ok []
  | a :: l' => b ← f a; bs ← traverse f l'; Ok (b :: bs)
  end.

(** [ConfluenceRenderer.render_authors] *)
Definition render_authors (r : renderer) : result str :=
  let author_template := author_literal in
  keys ← iterate (authors r);
  entries ← traverse
    (fun user_key => format author_template [] [(lit "user_key", user_key)])
    keys;
  let author_content := join (lit "<br />") entries in
  format (lit "<h1>Authors</h1><p>{}</p>") [author_content] [].

(** [ConfluenceRenderer.layout] *)
Definition layout (content : str) (r : renderer) : result str :=
  let toc := dedent toc_literal in
  let toc := if negb (has_toc r) then [] else toc in
  authors_html ← render_authors r;
  let column := dedent column_literal in
  if truthy (sidebar r) then
    sidebar_html ← format column []
      [(lit "width", lit "30%"); (lit "content", toc ++ authors_html)];
    main_content ← format column []
      [(lit "width", lit "800px"); (lit "content", content)];
    Ok (sidebar_html ++ main_content)
  else Ok (toc ++ content ++ authors_html).

(** [lang or ''] *)
Definition lang_or_empty (lang : option str) : str :=
  match lang with
  | Some l => l
  | None => []
  end.

(** [ConfluenceRenderer.block_code] *)
Definition block_code (code : str) (lang : option str) : result str :=
  format (dedent code_literal) []
    [(lit "c", code); (lit "l", lang_or_empty lang)].

(** [os.path.basename] of [posixpath]: what follows the last slash. *)
Definition basename (p : str) : str := List.last (split_on 47 p) [].

(** Truth value of an optional string ([None] or a [str]). *)
Definition opt_truthy (o : option str) : bool :=
  match o with
  | Some s => str_truthy s
  | None => false
  end.

(** The calls the Markdown parser makes to the overridden callbacks. *)
Inductive call : Type :=
| CallHeader (text : str) (level : N) (raw : option str)
| CallBlockCode (code : str) (lang : option str)
| CallImage (src : str) (title : option str) (alt_text : str).

Definition is_header (c : call) : bool :=
  match c with CallHeader _ _ _ => true | _ => false end.

(** ** Reading the markup back

    Substring tests used to state what the produced markup contains. *)

Fixpoint starts_with (p s : str) : bool :=
  match p, s with
  | [], _ => true
  | _ :: _, [] => false
  | x :: p', y :: s' => (x =? y) && starts_with p' s'
  end.

(** [p in s] *)
Fixpoint occurs (p s : str) : bool :=
  starts_with p s ||
  match s with
  | [] => false
  | _ :: s' => occurs p s'
  end.

(** The text before the first occurrence of [p], if there is one. *)
Fixpoint take_until (p s : str) : option str :=
  if starts_with p s then Some []
  else match s with
       | [] => None
       | c :: s' => option_map (cons c) (take_until p s')
       end.

(** The text after the first occurrence of [p], if there is one. *)
Fixpoint skip_to (p s : str) : option str :=
  if starts_with p s then Some (skipn (List.length p) s)
  else match s with
       | [] => None
       | _ :: s' => skip_to p s'
       end.

Definition CDATA_OPEN : str := lit "<![CDATA[".
Definition CDATA_CLOSE : str := lit "]]>".

(** The character data of the first CDATA section of a fragment, as an XML
    reader takes it: from the opener to the first closer. *)
Definition plain_text_body (markup : str) : option str :=
  match skip_to CDATA_OPEN markup with
  | Some rest => take_until CDATA_CLOSE rest
  | None => None
  end.

(** ** The markup the statements speak of *)

(** The table-of-contents fragment: heading and [toc] macro. *)
Definition toc_fragment : str := lit "
<h1>Table of Contents</h1>
<p><ac:structured-macro ac:name='toc' ac:schema-version='1'>
    <ac:parameter ac:name='exclude'>^(Authors|Table of Contents)$</ac:parameter>
    <!-- <ac:parameter ac:name='outline'>true</ac:parameter> -->
</ac:structured-macro></p>".

(** The opening tag of the [toc] macro. *)
Definition toc_macro : str :=
  lit "<ac:structured-macro ac:name='toc' ac:schema-version='1'>".

(** One column structure of the given width around the given content. *)
Definition column_macro (width content : str) : str :=
  lit "
<ac:structured-macro ac:name='column' ac:schema-version='1'>
    <ac:parameter ac:name='width'>" ++ width ++ lit "</ac:parameter>
    <ac:rich-text-body>" ++ content ++ lit "</ac:rich-text-body>
</ac:structured-macro>".

(** The page for a body and an Authors fragment, with or without the
    table of contents and the two columns. *)
Definition page_markup (with_toc two_columns : bool) (body authors_html : str)
    : str :=
  let toc := if with_toc then toc_fragment else [] in
  if two_columns
  then column_macro (lit "30%") (toc ++ authors_html)
       ++ column_macro (lit "800px") body
  else toc ++ body ++ authors_html.

(** The profile-picture macro and the user link of one author. *)
Definition profile_picture (user_key : str) : str :=
  lit "<ac:structured-macro ac:name='profile-picture' ac:schema-version='1'>
                <ac:parameter ac:name='User'><ri:user ri:userkey='" ++ user_key
  ++ lit "' /></ac:parameter>
            </ac:structured-macro>".

Definition user_link (user_key : str) : str :=
  lit "<ac:link><ri:user ri:userkey='" ++ user_key ++ lit "' /></ac:link>".

Definition author_entry (user_key : str) : str :=
  profile_picture user_key ++ lit "&nbsp;
            " ++ user_link user_key.

(** The Authors fragment for a sequence of user keys. *)
Definition authors_fragment (keys : list str) : str :=
  lit "<h1>Authors</h1><p>" ++ join (lit "<br />") (map author_entry keys)
  ++ lit "</p>".

(** The code macro around a language and a code text. *)
Definition code_opening (language : str) : str :=
  lit "<ac:structured-macro ac:name='code' ac:schema-version='1'>
    <ac:parameter ac:name='language'>" ++ language ++ lit "</ac:parameter>
    <ac:plain-text-body>" ++ CDATA_OPEN.

Definition code_closing : str :=
  CDATA_CLOSE ++ lit "</ac:plain-text-body>
</ac:structured-macro>
".

(** The two inner references of an image tag. *)
Definition url_reference (src : str) : str :=
  lit "<ri:url ri:value='" ++ src ++ lit "' />".

Definition attachment_reference (filename : str) : str :=
  lit "<ri:attachment ri:filename='" ++ filename ++ lit "' />".

(** An attribute of the image tag, present for a non-empty value only. *)
Definition image_attribute (name : str) (value : option str) : str :=
  match value with
  | Some v => if str_truthy v
              then lit " ac:" ++ name ++ lit "='" ++ v ++ lit "'"
              else []
  | None => []
  end.

Definition image_markup (height width : option str) (reference : str) : str :=
  lit "<ac:image" ++ image_attribute (lit "height") height
  ++ image_attribute (lit "width") width
  ++ lit ">" ++ reference ++ lit "</ac:image>".

(** A string without braces. *)
Definition plain (s : str) : Prop :=
  Forall (fun c => c <> LBRACE /\ c <> RBRACE) s.


(** *** Scanning for a tag

    A tag [<] followed by [tail], where [tail] holds no [<], can only occur
    in a text right after one of its [<].  The scan reads the text once;
    its state is [Some rest] while the text since the last [<] agrees with
    [tail] up to [rest], and [None] otherwise.  It stops with [None] when
    the tag has been read in full. *)

Definition scan_enter (rest : str) : option (option str) :=
  match rest with
  | [] => None
  | _ :: _ => Some (Some rest)
  end.

Definition scan_step (tail : str) (m : option str) (c : N)
    : option (option str) :=
  if c =? 60 then scan_enter tail
  else match m with
       | Some (x :: rest) => if c =? x then scan_enter rest else Some None
       | _ => Some None
       end.

Fixpoint scan (tail : str) (m : option str) (s : str)
    : option (option str) :=
  match s with
  | [] => Some m
  | c :: s' => match scan_step tail m c with
               | None => None
               | Some m' => scan tail m' s'
               end
  end.

(** The opening tag of the [toc] macro after its [<]. *)
Definition toc_macro_tail : str :=
  lit "ac:structured-macro ac:name='toc' ac:schema-version='1'>".


(** Whether the scan stopped on the tag. *)
Definition scan_found (o : option (option str)) : bool :=
  match o with
  | None => true
  | Some _ => false
  end.


(** [s.count(c)] for a single character. *)
Definition count_char (c : N) (s : str) : nat :=
  List.length (List.filter (N.eqb c) s).

(** The renderer with another [sidebar]. *)
Definition with_sidebar (v : pyval) (r : renderer) : renderer :=
  {| attachments := attachments r; authors := authors r;
     has_toc := has_toc r; sidebar := v |}.


(** ** Reference instances of the library functions

    Used to run the module on concrete posts; each follows its library on
    plain ASCII input. *)

Definition is_digit (c : N) : bool := (48 <=? c) && (c <=? 57).

Definition is_alpha (c : N) : bool :=
  ((65 <=? c) && (c <=? 90)) || ((97 <=? c) && (c <=? 122)).

(** Decimal digits with single underscores between them. *)
Fixpoint digits_ok (after_digit : bool) (s : str) : bool :=
  match s with
  | [] => after_digit
  | c :: s' =>
      if is_digit c then digits_ok true s'
      else if c =? 95 then after_digit && digits_ok false s'
      else false
  end.

(** [int(s)] on ASCII text: surrounding whitespace, an optional sign, then
    digits. *)
Definition ascii_int_ok (s : str) : bool :=
  match strip s with
  | [] => false
  | c :: t => if (c =? 43) || (c =? 45) then digits_ok false t
              else digits_ok false (c :: t)
  end.

(** [s.partition(sep)] without the separator, [None] when it is absent. *)
Fixpoint split_first (sep : N) (s : str) : option (str * str) :=
  match s with
  | [] => None
  | c :: s' =>
      if c =? sep then Some ([], s')
      else match split_first sep s' with
           | Some (a, b) => Some (c :: a, b)
           | None => None
           end
  end.

Definition is_scheme_char (c : N) : bool :=
  is_alpha c || is_digit c || (c =? 43) || (c =? 45) || (c =? 46).

Definition strip_scheme (url : str) : str :=
  match split_first 58 url with
  | Some (c :: pre, rest) =>
      if is_alpha c && forallb is_scheme_char pre then rest else url
  | _ => url
  end.

Fixpoint until_delimiter (s : str) : str :=
  match s with
  | [] => []
  | c :: s' => if (c =? 47) || (c =? 63) || (c =? 35) then []
               else c :: until_delimiter s'
  end.

(** [urlsplit(url).netloc] of [urllib.parse]: after an optional scheme, the
    text between a leading double slash and the next slash, question mark
    or hash; unbalanced brackets raise. *)
Definition urlsplit_netloc (url : str) : result str :=
  match strip_scheme url with
  | c1 :: c2 :: rest =>
      if (c1 =? 47) && (c2 =? 47) then
        let netloc := until_delimiter rest in
        if xorb (contains 91 netloc) (contains 93 netloc)
        then Raise ValueError else Ok netloc
      else Ok []
  | _ => Ok []
  end.

(** [mistune.Renderer.header]: the plain heading element and a newline. *)
Definition mistune_header (text : str) (level : N) (raw : option str) : str :=
  let n := lit (NilZero.string_of_uint (N.to_uint level)) in
  lit "<h" ++ n ++ lit ">" ++ text ++ lit "</h" ++ n ++ lit ">" ++ [NL].

(** A YAML loader known on the listed buffers only. *)
Definition yaml_load_table (table : list (str * result document))
    (raw : str) : result document :=
  match find (fun e => bool_decide (fst e = raw)) table with
  | Some e => snd e
  | None => Raise YAMLError
  end.

(** ** Posts used in the examples *)

(** The callbacks of a post with a title, an external image and twice the
    same local image. *)
Definition gallery_calls : list call :=
  [ CallHeader (lit "Title") 1 None;
    CallImage (lit "http://example.com/a.png") None (lit "remote|10x20");
    CallImage (lit "images/pic.png") None (lit "local");
    CallImage (lit "images/pic.png") None (lit "again|5") ].

(** The callbacks of a post with a single code block. *)
Definition snippet_calls : list call :=
  [ CallBlockCode (lit "print(1)") (Some (lit "python")) ].

(** A parser with the given calls that strings the fragments together. *)
Definition calls_of (cs : list call) : str -> list call := fun _ => cs.
Definition output_concat : str -> list str -> str := fun _ outs => concat outs.


Section Convert.

(** *** Library functions the module calls *)

(** [yaml.load(raw_yaml, Loader=yaml.SafeLoader)]; raises on a malformed
    document. *)
Variable yaml_load : str -> result document.

(** [urlparse(src).netloc]; [urlparse] raises [ValueError] on some
    inputs. *)
Variable urlparse_netloc : str -> result str.

(** Whether [int(s)] returns for the string [s] (it raises [ValueError]
    otherwise). *)
Variable int_ok : str -> bool.

(** [int] accepts no string with a brace in it. *)
Hypothesis int_ok_plain : forall s, int_ok s = true -> plain s.


(** [mistune.Renderer.header], the inherited heading renderer. *)
Variable super_header : str -> N -> option str -> str.

(** [mistune.markdown(text, renderer=renderer)]: the calls it makes to
    the overridden callbacks, in order, and the text it builds from the
    fragments they return. *)
Variable mistune_calls : str -> list call.
Variable mistune_output : str -> list str -> str.

(** *** [parse] *)

(** [parse], given the text of the post. *)
Definition parse (text : str) : result (document * str) :=
  let st := parse_lines (readlines text) in
  front_matter ← yaml_load (raw_yaml st);
  let markdown := strip (markdown st) in
  Ok (front_matter, markdown).

(** *** [ConfluenceRenderer.image] *)

(** The try block of [extract_height_width]: every non-empty component
    must pass [int]. *)
Definition component_ok (o : option str) : bool :=
  match o with
  | Some s => if str_truthy s then int_ok s else true
  | None => true
  end.

(** [extract_height_width], local to [image]. *)
Definition extract_height_width (alt_text : str)
    : result (option str * option str) :=
  let parts := List.last (split_on 124 alt_text) [] in
  '(height, width) ←
    (if contains 120 parts then
       match split_on 120 parts with
       | [height; width] => Ok (Some height, Some width)
       | _ => Raise ValueError
       end
     else Ok (Some parts, None));
  if component_ok height && component_ok width
  then Ok (height, width)
  else Ok (None, None).

(** [tag_template += template.format(value)] when [value] is true. *)
Definition add_attribute (tag_template : str) (template : str)
    (value : option str) : result str :=
  match value with
  | Some v =>
      if str_truthy v
      then attr ← format template [v] []; Ok (tag_template ++ attr)
      else Ok tag_template
  | None => Ok tag_template
  end.

(** [ConfluenceRenderer.image] *)
Definition image (src : str) (title : option str) (alt_text : str)
    (r : renderer) : result (str * renderer) :=
  netloc ← urlparse_netloc src;
  let is_external := str_truthy netloc in
  '(height, width) ← extract_height_width alt_text;
  let tag_template := lit "<ac:image" in
  tag_template ← add_attribute tag_template (lit " ac:height='{}'") height;
  tag_template ← add_attribute tag_template (lit " ac:width='{}'") width;
  let tag_template := tag_template ++ lit ">{image_tag}</ac:image>" in
  image_tag ← format (lit "<ri:url ri:value='{}' />") [src] [];
  '(image_tag, r) ←
    (if negb is_external then
       image_tag ← format (lit "<ri:attachment ri:filename='{}' />")
                          [basename src] [];
       Ok (image_tag,
           {| attachments := attachments r ++ [src]; authors := authors r;
              has_toc := has_toc r; sidebar := sidebar r |})
     else Ok (image_tag, r));
  out ← format tag_template [] [(lit "image_tag", image_tag)];
  Ok (out, r).

(** [ConfluenceRenderer.header] *)
Definition header (text : str) (level : N) (raw : option str)
    (r : renderer) : str * renderer :=
  let r := {| attachments := attachments r; authors := authors r;
              has_toc := true; sidebar := sidebar r |} in
  (super_header text level raw, r).

(** *** The parser driving the callbacks *)

Definition dispatch (c : call) (r : renderer) : result (str * renderer) :=
  match c with
  | CallHeader text level raw => Ok (header text level raw r)
  | CallBlockCode code lang => out ← block_code code lang; Ok (out, r)
  | CallImage src title alt_text => image src title alt_text r
  end.

Fixpoint run_calls (cs : list call) (r : renderer)
    : result (list str * renderer) :=
  match cs with
  | [] => Ok ([], r)
  | c :: cs' =>
      '(out, r) ← dispatch c r;
      '(outs, r) ← run_calls cs' r;
      Ok (out :: outs, r)
  end.

Definition mistune_markdown (text : str) (r : renderer)
    : result (str * renderer) :=
  '(outs, r) ← run_calls (mistune_calls text) r;
  Ok (mistune_output text outs, r).

(** *** [convtoconf] *)

Definition convtoconf (markdown : str) (front_matter : document)
    : result (str * list str) :=
  front_matter ← match front_matter with
                 | DocNone => Ok ∅
                 | DocMapping m => Ok m
                 | DocOther _ => Raise AttributeError
                 end;
  let author_keys := dict_get front_matter (lit "author_keys") (PyList []) in
  let sidebar := dict_get front_matter (lit "sidebar") (PyBool false) in
  let renderer := new_renderer author_keys sidebar in
  '(content_html, renderer) ← mistune_markdown markdown renderer;
  page_html ← layout content_html renderer;
  Ok (page_html, attachments renderer).

(** *** Predicates used in the statements *)

(** No line of [lines] closes a block whose buffer already holds [acc]. *)
Definition no_closer (acc : str) (lines : list str) : Prop :=
  forall b1 l b2, lines = b1 ++ l :: b2 ->
    strip l = YAML_BOUNDARY -> acc ++ concat b1 = [].

(** The sources of the image calls whose URL has an empty network
    location, in call order. *)
Definition local_srcs (cs : list call) : list str :=
  flat_map (fun c => match c with
                     | CallImage src _ _ =>
                         match urlparse_netloc src with
                         | Ok [] => [src]
                         | _ => []
                         end
                     | _ => []
                     end) cs.

(** A call that returns: every call but an image whose URL is refused or
    whose size hint has more than one [x]. *)
Definition call_returns (c : call) : bool :=
  match c with
  | CallImage src _ alt_text =>
      match urlparse_netloc src, extract_height_width alt_text with
      | Ok _, Ok _ => true
      | _, _ => false
      end
  | _ => true
  end.




(** The dictionary [convtoconf] reads, when the front matter has one. *)
Definition front_matter_dict (fm : document) : option (gmap str pyval) :=
  match fm with
  | DocNone => Some ∅
  | DocMapping m => Some m
  | DocOther _ => None
  end.

(** Reduction of the exception monad on an outcome that is known. *)
Ltac monad := cbn [mbind result_bind mret result_ret].

(** ** Facts about text *)

Lemma strip_nil : strip [] = [].
Proof. reflexivity. Qed.

Lemma boundary_nonempty (line : str) :
  strip line = YAML_BOUNDARY -> line <> [].
Proof. intros H ->. discriminate H. Qed.

Lemma str_truthy_true (s : str) : str_truthy s = true <-> s <> [].
Proof. destruct s; simpl; split; congruence. Qed.

Lemma str_truthy_false (s : str) : str_truthy s = false <-> s = [].
Proof. destruct s; simpl; split; congruence. Qed.

Lemma readlines_concat (s : str) : concat (readlines s) = s.
Proof.
  induction s as [|c s IH]; simpl; [reflexivity|].
  destruct (c =? NL).
  - simpl. now rewrite IH.
  - destruct (readlines s) as [|l ls]; simpl in *.
    + now rewrite <- IH.
    + now rewrite <- IH.
Qed.

Lemma readlines_nonempty (s : str) : Forall (fun l => l <> []) (readlines s).
Proof.
  induction s as [|c s IH]; simpl; [constructor|].
  destruct (c =? NL).
  - constructor; [discriminate | exact IH].
  - destruct (readlines s) as [|l ls].
    + repeat constructor. discriminate.
    + inversion IH; subst. constructor; [discriminate | assumption].
Qed.

(** ** Facts about the loop of [parse] *)

Lemma parse_line_closed (st : parse_state) (line : str) :
  in_yaml st = false ->
  parse_line st line =
    {| raw_yaml := raw_yaml st; markdown := markdown st ++ line;
       in_yaml := false |}.
Proof.
  intros H. unfold parse_line. rewrite H. simpl.
  now destruct (bool_decide _).
Qed.

Lemma parse_line_plain (st : parse_state) (line : str) :
  in_yaml st = true -> strip line <> YAML_BOUNDARY ->
  parse_line st line =
    {| raw_yaml := raw_yaml st ++ line; markdown := markdown st;
       in_yaml := true |}.
Proof.
  intros H Hne. unfold parse_line. rewrite H.
  now rewrite bool_decide_eq_false_2.
Qed.

Lemma parse_line_first (st : parse_state) (line : str) :
  in_yaml st = true -> raw_yaml st = [] ->
  parse_line st line =
    {| raw_yaml := line; markdown := markdown st; in_yaml := true |}.
Proof.
  intros H Hraw. unfold parse_line. rewrite H, Hraw. simpl.
  now destruct (bool_decide _).
Qed.

Lemma parse_line_close (st : parse_state) (line : str) :
  in_yaml st = true -> raw_yaml st <> [] -> strip line = YAML_BOUNDARY ->
  parse_line st line =
    {| raw_yaml := raw_yaml st; markdown := markdown st;
       in_yaml := false |}.
Proof.
  intros H Hraw Hb. unfold parse_line.
  rewrite H, bool_decide_eq_true_2 by exact Hb.
  apply str_truthy_true in Hraw. now rewrite Hraw.
Qed.

(** Once the block is closed every line goes to the body. *)
Lemma fold_closed (lines : list str) (st : parse_state) :
  in_yaml st = false ->
  fold_left parse_line lines st =
    {| raw_yaml := raw_yaml st; markdown := markdown st ++ concat lines;
       in_yaml := false |}.
Proof.
  revert st. induction lines as [|l ls IH]; intros st H; simpl.
  - rewrite app_nil_r. destruct st; simpl in *. now subst.
  - rewrite parse_line_closed by exact H.
    rewrite IH by reflexivity. simpl. now rewrite <- app_assoc.
Qed.

(** Lines that are no delimiter all go to the metadata buffer. *)
Lemma fold_open_plain (lines : list str) (st : parse_state) :
  in_yaml st = true ->
  Forall (fun l => strip l <> YAML_BOUNDARY) lines ->
  fold_left parse_line lines st =
    {| raw_yaml := raw_yaml st ++ concat lines; markdown := markdown st;
       in_yaml := true |}.
Proof.
  revert st. induction lines as [|l ls IH]; intros st H Hall; simpl.
  - rewrite app_nil_r. destruct st; simpl in *. now subst.
  - inversion Hall as [|? ? Hl Hls]; subst.
    rewrite parse_line_plain by assumption.
    rewrite IH by (try reflexivity; assumption).
    simpl. now rewrite <- app_assoc.
Qed.

(** The loop from an open block: either it stays open, or exactly one
    line, the first closer, is dropped. *)
Lemma fold_open (lines : list str) (st : parse_state) :
  in_yaml st = true ->
  let st' := fold_left parse_line lines st in
  (in_yaml st' = true /\ raw_yaml st' = raw_yaml st ++ concat lines /\
   markdown st' = markdown st /\ no_closer (raw_yaml st) lines)
  \/
  (exists before d after,
     lines = before ++ d :: after /\ strip d = YAML_BOUNDARY /\
     raw_yaml st ++ concat before <> [] /\
     no_closer (raw_yaml st) before /\
     in_yaml st' = false /\
     raw_yaml st' = raw_yaml st ++ concat before /\
     markdown st' = markdown st ++ concat after).
Proof.
  revert st. induction lines as [|l ls IH]; intros st H;
    cbn [fold_left concat]; cbv zeta.
  - left. rewrite app_nil_r. repeat split; try assumption.
    intros [|? ?] ? ? Heq; discriminate Heq.
  - destruct (decide (strip l = YAML_BOUNDARY)) as [Hb|Hb].
    + destruct (raw_yaml st) as [|c raw] eqn:Hraw.
      * (* a delimiter with nothing buffered is metadata *)
        rewrite parse_line_first by assumption.
        specialize (IH {| raw_yaml := l; markdown := markdown st;
                          in_yaml := true |} eq_refl).
        simpl in IH.
        destruct IH as [(Hin & Hr & Hm & Hno)
                       |(before & d & after & Hl & Hd & Hne & Hno & Hin & Hr & Hm)].
        -- left. repeat split; try assumption.
           intros [|x b1] y b2 Heq Hy; [reflexivity|].
           injection Heq as -> Heq. simpl.
           exfalso. apply (boundary_nonempty _ Hb).
           specialize (Hno b1 y b2 Heq Hy).
           now apply app_eq_nil in Hno.
        -- right. exists (l :: before), d, after. simpl.
           repeat split; try assumption.
           ++ now rewrite Hl.
           ++ intros [|x b1] y b2 Heq Hy; [reflexivity|].
              injection Heq as -> Heq. simpl.
              exfalso. apply (boundary_nonempty _ Hb).
              specialize (Hno b1 y b2 Heq Hy).
              now apply app_eq_nil in Hno.
      * (* the first closer *)
        rewrite parse_line_close by (rewrite ?Hraw; easy).
        rewrite fold_closed by reflexivity. simpl.
        right. exists [], l, ls. simpl. rewrite app_nil_r, Hraw.
        repeat split; try easy.
        intros [|? ?] ? ? Heq; discriminate Heq.
    + rewrite parse_line_plain by assumption.
      specialize (IH {| raw_yaml := raw_yaml st ++ l;
                        markdown := markdown st; in_yaml := true |} eq_refl).
      simpl in IH.
      destruct IH as [(Hin & Hr & Hm & Hno)
                     |(before & d & after & Hl & Hd & Hne & Hno & Hin & Hr & Hm)].
      * left. rewrite <- app_assoc in Hr. repeat split; try assumption.
        intros [|x b1] y b2 Heq Hy.
        -- injection Heq as -> _. contradiction.
        -- injection Heq as -> Heq. simpl. rewrite app_assoc.
           exact (Hno b1 y b2 Heq Hy).
      * right. exists (l :: before), d, after. simpl.
        rewrite <- app_assoc in Hr, Hne.
        repeat split; try assumption.
        -- now rewrite Hl.
        -- intros [|x b1] y b2 Heq Hy.
           ++ injection Heq as -> _. contradiction.
           ++ injection Heq as -> Heq. simpl. rewrite app_assoc.
              exact (Hno b1 y b2 Heq Hy).
Qed.

(** ** The front-matter split *)

Lemma in_concat_middle (l : str) (ls : list str) :
  In l ls -> exists a b, concat ls = a ++ l ++ b.
Proof.
  intros Hin. apply List.in_split in Hin as (l1 & l2 & ->).
  exists (concat l1), (concat l2). now rewrite concat_app.
Qed.

(** C9: a post with no line whose trimmed content is the delimiter has its
    whole text as metadata buffer and an empty body; [parse] then returns
    what the loader makes of the whole text, with the empty body. *)
Theorem parse_without_delimiter (text : str) :
  (forall line, In line (readlines text) -> strip line <> YAML_BOUNDARY) ->
  split_front_matter text = (text, []) /\
  parse text = (front_matter ← yaml_load text; Ok (front_matter, [])).
Proof.
  intros Hno.
  assert (Hfold : parse_lines (readlines text) =
                  {| raw_yaml := text; markdown := []; in_yaml := true |}).
  { unfold parse_lines. rewrite fold_open_plain.
    - simpl. now rewrite readlines_concat.
    - reflexivity.
    - apply List.Forall_forall. exact Hno. }
  unfold split_front_matter, parse. rewrite Hfold. simpl.
  split; reflexivity.
Qed.

(** C10: the loop drops at most one line.  Either the block never closes
    and every line is metadata, or the lines are [before ++ d :: after]
    where [d] is the first delimiter line met with a non-empty buffer: [d]
    alone is dropped, the buffer is exactly [before], the body buffer is
    exactly [after], so every later delimiter line is in the body as it was
    read. *)
Theorem parse_drops_one_delimiter (text : str) :
  let st := parse_lines (readlines text) in
  (in_yaml st = true /\ raw_yaml st = text /\ markdown st = [] /\
   no_closer [] (readlines text))
  \/
  (exists before d after,
     readlines text = before ++ d :: after /\
     strip d = YAML_BOUNDARY /\
     concat before <> [] /\
     no_closer [] before /\
     in_yaml st = false /\
     raw_yaml st = concat before /\
     markdown st = concat after /\
     text = concat before ++ d ++ concat after /\
     (forall l, In l after -> strip l = YAML_BOUNDARY ->
        exists a b, markdown st = a ++ l ++ b) /\
     split_front_matter text = (concat before, strip (concat after))).
Proof.
  intros st.
  destruct (fold_open (readlines text) parse_init eq_refl)
    as [(Hin & Hr & Hm & Hno)
       |(before & d & after & Hl & Hd & Hne & Hno & Hin & Hr & Hm)];
    fold (parse_lines (readlines text)) in *; fold st in Hin, Hr, Hm;
    simpl in *.
  - left. rewrite readlines_concat in Hr. easy.
  - right. exists before, d, after.
    repeat split; try assumption.
    + rewrite <- (readlines_concat text) at 1. rewrite Hl, concat_app.
      reflexivity.
    + intros l Hl' _. rewrite Hm. now apply in_concat_middle.
    + unfold split_front_matter. fold st. now rewrite Hr, Hm.
Qed.

(** C2, as the code has it: when the first line is a delimiter line, the
    lines [mid] that follow hold no delimiter and the next line [d] is one,
    the metadata buffer is the first delimiter line followed by [mid], and
    the body is everything after [d], trimmed. *)
Theorem parse_delimited_block (text l0 d : str) (mid rest : list str) :
  readlines text = l0 :: mid ++ d :: rest ->
  strip l0 = YAML_BOUNDARY ->
  Forall (fun l => strip l <> YAML_BOUNDARY) mid ->
  strip d = YAML_BOUNDARY ->
  split_front_matter text = (l0 ++ concat mid, strip (concat rest)) /\
  parse text =
    (front_matter ← yaml_load (l0 ++ concat mid);
     Ok (front_matter, strip (concat rest))).
Proof.
  intros Hl H0 Hmid Hd.
  assert (Hfold : parse_lines (readlines text) =
                  {| raw_yaml := l0 ++ concat mid; markdown := concat rest;
                     in_yaml := false |}).
  { unfold parse_lines. rewrite Hl. cbn [fold_left].
    rewrite parse_line_first by reflexivity.
    rewrite fold_left_app.
    rewrite (fold_open_plain mid) by (first [reflexivity | exact Hmid]).
    cbn [fold_left raw_yaml markdown].
    rewrite parse_line_close.
    - now rewrite fold_closed.
    - reflexivity.
    - simpl. intros Heq. apply app_eq_nil in Heq as [Heq _].
      now apply (boundary_nonempty _ H0).
    - exact Hd. }
  unfold split_front_matter, parse. rewrite Hfold. simpl.
  split; reflexivity.
Qed.


(** ** Facts about [format] and the templates *)

Lemma plain_app (a b : str) : plain a -> plain b -> plain (a ++ b).
Proof. intros Ha Hb. apply List.Forall_app. now split. Qed.

Lemma plain_lit_check (s : str) :
  forallb (fun c => negb (c =? LBRACE) && negb (c =? RBRACE)) s = true ->
  plain s.
Proof.
  intros H. apply List.Forall_forall. intros c Hc.
  rewrite forallb_forall in H. specialize (H c Hc).
  apply andb_prop in H as [H1 H2].
  apply negb_true_iff in H1, H2. apply N.eqb_neq in H1, H2. easy.
Qed.

(** Text without braces is copied by [format]. *)
Lemma format_plain_prefix (s t : str) (auto : nat) (args : list str)
    (kwargs : list (str * str)) :
  plain s ->
  format_from (s ++ t) None auto args kwargs =
    (out ← format_from t None auto args kwargs; Ok (s ++ out)).
Proof.
  induction 1 as [|c s [Hl Hr] _ IH]; simpl.
  - now destruct (format_from t None auto args kwargs).
  - apply N.eqb_neq in Hl, Hr. rewrite Hl, Hr, IH.
    now destruct (format_from t None auto args kwargs).
Qed.

Lemma dedent_toc : dedent toc_literal = toc_fragment.
Proof. vm_compute. reflexivity. Qed.

Lemma format_column (width content : str) :
  format (dedent column_literal) []
         [(lit "width", width); (lit "content", content)]
  = Ok (column_macro width content).
Proof. vm_compute. reflexivity. Qed.

Lemma format_author (user_key : str) :
  format author_literal [] [(lit "user_key", user_key)]
  = Ok (author_entry user_key).
Proof.
  unfold author_entry, profile_picture, user_link.
  rewrite <- !app_assoc. vm_compute. reflexivity.
Qed.

Lemma format_authors_heading (author_content : str) :
  format (lit "<h1>Authors</h1><p>{}</p>") [author_content] []
  = Ok (lit "<h1>Authors</h1><p>" ++ author_content ++ lit "</p>").
Proof. vm_compute. reflexivity. Qed.

Lemma format_code (code language : str) :
  format (dedent code_literal) [] [(lit "c", code); (lit "l", language)]
  = Ok (code_opening language ++ code ++ code_closing).
Proof.
  unfold code_opening. rewrite <- !app_assoc. vm_compute. reflexivity.
Qed.

Lemma format_url (src : str) :
  format (lit "<ri:url ri:value='{}' />") [src] [] = Ok (url_reference src).
Proof. vm_compute. reflexivity. Qed.

Lemma format_attachment (filename : str) :
  format (lit "<ri:attachment ri:filename='{}' />") [filename] []
  = Ok (attachment_reference filename).
Proof. vm_compute. reflexivity. Qed.

Lemma add_height (tag_template : str) (height : option str) :
  add_attribute tag_template (lit " ac:height='{}'") height
  = Ok (tag_template ++ image_attribute (lit "height") height).
Proof.
  destruct height as [[|c v]|]; simpl; rewrite ?app_nil_r; reflexivity.
Qed.

Lemma add_width (tag_template : str) (width : option str) :
  add_attribute tag_template (lit " ac:width='{}'") width
  = Ok (tag_template ++ image_attribute (lit "width") width).
Proof.
  destruct width as [[|c v]|]; simpl; rewrite ?app_nil_r; reflexivity.
Qed.


(** ** The Authors fragment and the layout *)

Lemma traverse_ok {A B : Type} (f : A -> result B) (g : A -> B) (l : list A) :
  (forall a, f a = Ok (g a)) -> traverse f l = Ok (map g l).
Proof.
  intros Hf. induction l as [|a l IH]; simpl; [reflexivity|].
  now rewrite Hf, IH.
Qed.

Lemma render_authors_list (r : renderer) (keys : list str) :
  authors r = PyList keys -> render_authors r = Ok (authors_fragment keys).
Proof.
  intros Hkeys. unfold render_authors. rewrite Hkeys.
  cbn [iterate]. monad.
  rewrite (traverse_ok _ author_entry) by apply format_author. monad.
  apply format_authors_heading.
Qed.

Lemma layout_shape (content authors_html : str) (r : renderer) :
  render_authors r = Ok authors_html ->
  layout content r
  = Ok (page_markup (has_toc r) (truthy (sidebar r)) content authors_html).
Proof.
  intros Hauthors. unfold layout, page_markup. rewrite Hauthors. monad.
  rewrite dedent_toc.
  destruct (truthy (sidebar r)).
  - rewrite !format_column. monad. now destruct (has_toc r).
  - now destruct (has_toc r).
Qed.

Lemma join_cons (sep p q : str) (ps : list str) :
  join sep (p :: q :: ps) = p ++ sep ++ join sep (q :: ps).
Proof. reflexivity. Qed.

(** C8: the Authors fragment is the heading followed by one entry per
    author key, in the given order and separated by a line break, each
    entry being the profile-picture macro and the user link of the key;
    with no author the heading and an empty paragraph remain. *)
Theorem render_authors_fragment (atts : list str) (keys : list str)
    (toc : bool) (sb : pyval) :
  render_authors {| attachments := atts; authors := PyList keys;
                    has_toc := toc; sidebar := sb |}
  = Ok (lit "<h1>Authors</h1><p>"
        ++ join (lit "<br />")
             (map (fun user_key =>
                     profile_picture user_key ++ lit "&nbsp;
            " ++ user_link user_key) keys)
        ++ lit "</p>")
  /\ render_authors {| attachments := atts; authors := PyList [];
                       has_toc := toc; sidebar := sb |}
     = Ok (lit "<h1>Authors</h1><p></p>")
  /\ render_authors (new_renderer PyNone sb)
     = Ok (lit "<h1>Authors</h1><p></p>").
Proof.
  split; [|split].
  - now apply render_authors_list.
  - now rewrite (render_authors_list _ []).
  - now rewrite (render_authors_list _ []).
Qed.

(** C7: whatever the body and the renderer state, the page is built from
    the TOC fragment (empty without [has_toc]), the body as given and the
    Authors fragment: with a true [sidebar], the sidebar column (width 30%,
    holding the TOC fragment then the Authors fragment) followed by the
    main column (width 800px, holding the body); otherwise the TOC
    fragment, the body and the Authors fragment in a row, with no column
    around them. *)
Theorem layout_compose (content : str) (r : renderer) :
  let toc_html := if has_toc r then toc_fragment else [] in
  layout content r
  = (authors_html ← render_authors r;
     Ok (if truthy (sidebar r)
         then column_macro (lit "30%") (toc_html ++ authors_html)
              ++ column_macro (lit "800px") content
         else toc_html ++ content ++ authors_html))
  /\ (forall keys, authors r = PyList keys ->
      layout content r
      = Ok (if truthy (sidebar r)
            then column_macro (lit "30%") (toc_html ++ authors_fragment keys)
                 ++ column_macro (lit "800px") content
            else toc_html ++ content ++ authors_fragment keys)).
Proof.
  intros toc_html. split.
  - destruct (render_authors r) as [authors_html|e] eqn:Hauthors; monad.
    + now rewrite (layout_shape content authors_html).
    + unfold layout. now rewrite Hauthors.
  - intros keys Hkeys.
    rewrite (layout_shape content (authors_fragment keys)).
    + reflexivity.
    + now apply render_authors_list.
Qed.

(** ** The code macro *)

Lemma starts_with_close_app (c : N) (code : str) :
  starts_with CDATA_CLOSE (c :: code) = false ->
  starts_with CDATA_CLOSE (c :: code ++ code_closing) = false.
Proof.
  destruct code as [|c2 [|c3 rest]]; intros H.
  - change ((93 =? c) && false = false). apply andb_false_r.
  - change ((93 =? c) && ((93 =? c2) && false) = false).
    now rewrite !andb_false_r.
  - exact H.
Qed.

Lemma take_until_closing (code : str) :
  occurs CDATA_CLOSE code = false ->
  take_until CDATA_CLOSE (code ++ code_closing) = Some code.
Proof.
  induction code as [|c code IH]; intros H.
  - reflexivity.
  - cbn [occurs] in H. apply orb_false_elim in H as [Hs Ho].
    cbn [take_until app].
    rewrite (starts_with_close_app c code) by exact Hs.
    now rewrite (IH Ho).
Qed.

Lemma skip_to_no_opener (language rest : str) :
  contains 60 language = false ->
  skip_to CDATA_OPEN (language ++ rest) = skip_to CDATA_OPEN rest.
Proof.
  induction language as [|c language IH]; intros H; [reflexivity|].
  unfold contains in H, IH. cbn [existsb] in H.
  apply orb_false_elim in H as [Hc H].
  cbn [app skip_to]. rewrite <- (IH H).
  assert (Hs : starts_with CDATA_OPEN (c :: language ++ rest) = false).
  { change (starts_with CDATA_OPEN (c :: language ++ rest))
      with ((60 =? c) && starts_with (lit "![CDATA[") (language ++ rest)).
    now rewrite Hc. }
  now rewrite Hs.
Qed.

Lemma skip_to_code_opening (language rest : str) :
  contains 60 language = false ->
  skip_to CDATA_OPEN (code_opening language ++ rest) = Some rest.
Proof.
  intros H. unfold code_opening. rewrite <- !app_assoc.
  transitivity (skip_to CDATA_OPEN
                  (language ++ lit "</ac:parameter>
    <ac:plain-text-body>" ++ CDATA_OPEN ++ rest)).
  - vm_compute. reflexivity.
  - rewrite skip_to_no_opener by exact H. vm_compute. reflexivity.
Qed.

(** C5, as the code has it: the code macro carries the language (empty
    when absent) and the code text copied as it is between the CDATA opener
    and closer.  When the code holds no closer of its own, the section
    opened before it ends exactly after it, and (the language holding no
    [<]) the character data of the macro is the code. *)
Theorem block_code_cdata (code : str) (lang : option str) :
  block_code code lang
  = Ok (code_opening (lang_or_empty lang) ++ code ++ code_closing)
  /\ lang_or_empty None = []
  /\ (occurs CDATA_CLOSE code = false ->
      take_until CDATA_CLOSE (code ++ code_closing) = Some code /\
      (contains 60 (lang_or_empty lang) = false ->
       plain_text_body
         (code_opening (lang_or_empty lang) ++ code ++ code_closing)
       = Some code)).
Proof.
  split; [apply format_code|]. split; [reflexivity|].
  intros Hcode. split; [now apply take_until_closing|].
  intros Hlang. unfold plain_text_body.
  rewrite skip_to_code_opening by exact Hlang.
  now apply take_until_closing.
Qed.


(** ** [split] and what follows the last separator *)

Lemma split_on_nonempty (sep : N) (s : str) : split_on sep s <> [].
Proof.
  destruct s as [|c s]; simpl; [discriminate|].
  destruct (c =? sep); [discriminate|].
  destruct (split_on sep s); discriminate.
Qed.

Lemma split_on_no_sep (sep : N) (s : str) :
  contains sep s = false -> split_on sep s = [s].
Proof.
  unfold contains. induction s as [|c s IH]; intros H; [reflexivity|].
  cbn [existsb] in H. apply orb_false_elim in H as [Hc H].
  cbn [split_on]. rewrite (N.eqb_sym c sep), Hc, (IH H). reflexivity.
Qed.

Lemma split_on_app (sep : N) (a b : str) :
  split_on sep (a ++ sep :: b) = split_on sep a ++ split_on sep b.
Proof.
  induction a as [|c a IH]; cbn [app split_on].
  - now rewrite N.eqb_refl.
  - destruct (c =? sep); rewrite IH; [reflexivity|].
    pose proof (split_on_nonempty sep a) as Hne.
    destruct (split_on sep a); [contradiction | reflexivity].
Qed.

Lemma last_app_nonempty (a b : list str) :
  b <> [] -> List.last (a ++ b) [] = List.last b [].
Proof.
  intros Hb. induction a as [|x a IH]; [reflexivity|].
  cbn [app List.last]. rewrite IH.
  destruct (a ++ b) eqn:E; [|reflexivity].
  apply app_eq_nil in E as [_ E]. contradiction.
Qed.

(** What follows the last separator. *)
Lemma last_split_after (sep : N) (a b : str) :
  contains sep b = false ->
  List.last (split_on sep (a ++ sep :: b)) [] = b.
Proof.
  intros Hb. rewrite split_on_app, last_app_nonempty.
  - now rewrite split_on_no_sep.
  - apply split_on_nonempty.
Qed.

Lemma last_split_whole (sep : N) (s : str) :
  contains sep s = false -> List.last (split_on sep s) [] = s.
Proof. intros H. now rewrite split_on_no_sep. Qed.

Lemma contains_middle (sep : N) (a b : str) :
  contains sep (a ++ sep :: b) = true.
Proof.
  unfold contains. rewrite existsb_app. cbn [existsb].
  now rewrite N.eqb_refl, orb_true_r.
Qed.

(** ** The size hint *)

Lemma extract_no_x (alt_text : str) :
  let parts := List.last (split_on 124 alt_text) [] in
  contains 120 parts = false ->
  extract_height_width alt_text
  = Ok (if component_ok (Some parts) then (Some parts, None)
        else (None, None)).
Proof.
  intros parts H. unfold extract_height_width. fold parts. rewrite H. monad.
  cbn [component_ok]. rewrite andb_true_r.
  now destruct (if str_truthy parts then int_ok parts else true).
Qed.

Lemma extract_one_x (alt_text h w : str) :
  List.last (split_on 124 alt_text) [] = h ++ 120 :: w ->
  contains 120 h = false -> contains 120 w = false ->
  extract_height_width alt_text
  = Ok (if component_ok (Some h) && component_ok (Some w)
        then (Some h, Some w) else (None, None)).
Proof.
  intros Hparts Hh Hw. unfold extract_height_width.
  rewrite Hparts, contains_middle, split_on_app.
  rewrite !split_on_no_sep by assumption. cbn [app]. monad.
  now destruct (component_ok (Some h) && component_ok (Some w)).
Qed.

(** More than one [x] in the segment: the unpacking raises. *)
Lemma extract_two_x (alt_text a b c : str) :
  List.last (split_on 124 alt_text) [] = a ++ 120 :: b ++ 120 :: c ->
  extract_height_width alt_text = Raise ValueError.
Proof.
  intros Hparts. unfold extract_height_width.
  rewrite Hparts, contains_middle, !split_on_app.
  pose proof (split_on_nonempty 120 a) as Ha.
  pose proof (split_on_nonempty 120 b) as Hb.
  pose proof (split_on_nonempty 120 c) as Hc.
  destruct (split_on 120 a) as [|a1 la]; [contradiction|].
  destruct (split_on 120 b) as [|b1 lb]; [contradiction|].
  destruct (split_on 120 c) as [|c1 lc]; [contradiction|].
  destruct la as [|a2 [|a3 la]], lb as [|b2 lb]; reflexivity.
Qed.

Lemma component_plain (name : str) (o : option str) :
  plain name -> component_ok o = true -> plain (image_attribute name o).
Proof.
  intros Hname Hok. destruct o as [s|]; cbn [image_attribute]; [|constructor].
  cbn [component_ok] in Hok. destruct (str_truthy s); [|constructor].
  repeat apply plain_app; try assumption;
    try (apply plain_lit_check; reflexivity).
  now apply int_ok_plain.
Qed.

Lemma extract_plain (alt_text : str) (h w : option str) :
  extract_height_width alt_text = Ok (h, w) ->
  plain (image_attribute (lit "height") h) /\
  plain (image_attribute (lit "width") w).
Proof.
  unfold extract_height_width.
  set (parts := List.last (split_on 124 alt_text) []).
  assert (Hgen : forall h0 w0,
    (if component_ok h0 && component_ok w0
     then Ok (h0, w0) else Ok (None, None)) = Ok (h, w) ->
    plain (image_attribute (lit "height") h) /\
    plain (image_attribute (lit "width") w)).
  { intros h0 w0. destruct (component_ok h0 && component_ok w0) eqn:E.
    - intros [= <- <-]. apply andb_prop in E as [E1 E2].
      split; apply component_plain; try assumption;
        apply plain_lit_check; reflexivity.
    - intros [= <- <-]. split; constructor. }
  destruct (contains 120 parts).
  - destruct (split_on 120 parts) as [|a [|b [|c l]]]; monad;
      try discriminate. apply Hgen.
  - monad. apply Hgen.
Qed.

(** ** The image tag *)

Lemma format_image_tag (attrs reference : str) :
  plain attrs ->
  format ((lit "<ac:image" ++ attrs) ++ lit ">{image_tag}</ac:image>") []
         [(lit "image_tag", reference)]
  = Ok (lit "<ac:image" ++ attrs ++ lit ">" ++ reference ++ lit "</ac:image>").
Proof.
  intros Hplain. unfold format.
  change (lit ">{image_tag}</ac:image>")
    with (lit ">" ++ lit "{image_tag}</ac:image>").
  rewrite <- !app_assoc, !app_assoc.
  rewrite format_plain_prefix.
  - rewrite <- !app_assoc.
    change (format_from (lit "{image_tag}</ac:image>") None 0 []
              [(lit "image_tag", reference)])
      with (Ok (reference ++ lit "</ac:image>")).
    monad. now rewrite <- !app_assoc.
  - repeat apply plain_app; try assumption;
      apply plain_lit_check; reflexivity.
Qed.

(** What [image] returns once the URL is split and the size hint read. *)
Lemma image_shape (src : str) (title : option str) (alt_text : str)
    (r : renderer) (netloc : str) (h w : option str) :
  urlparse_netloc src = Ok netloc ->
  extract_height_width alt_text = Ok (h, w) ->
  image src title alt_text r
  = Ok (if str_truthy netloc
        then (image_markup h w (url_reference src), r)
        else (image_markup h w (attachment_reference (basename src)),
              {| attachments := attachments r ++ [src];
                 authors := authors r; has_toc := has_toc r;
                 sidebar := sidebar r |})).
Proof.
  intros Hnet Hext. unfold image. rewrite Hnet, Hext. monad.
  rewrite add_height. monad. rewrite add_width. monad.
  rewrite format_url. monad.
  destruct (extract_plain _ _ _ Hext) as [Hh Hw].
  assert (Hattrs : plain (image_attribute (lit "height") h
                          ++ image_attribute (lit "width") w))
    by now apply plain_app.
  destruct (str_truthy netloc); cbn [negb]; monad.
  - rewrite <- (app_assoc (lit "<ac:image")).
    rewrite format_image_tag by exact Hattrs. monad.
    unfold image_markup. now rewrite <- !app_assoc.
  - rewrite format_attachment. monad.
    rewrite <- (app_assoc (lit "<ac:image")).
    rewrite format_image_tag by exact Hattrs. monad.
    unfold image_markup. now rewrite <- !app_assoc.
Qed.

Lemma image_inv (src : str) (title : option str) (alt_text : str)
    (r : renderer) (out : str * renderer) :
  image src title alt_text r = Ok out ->
  exists netloc h w,
    urlparse_netloc src = Ok netloc /\
    extract_height_width alt_text = Ok (h, w).
Proof.
  unfold image. destruct (urlparse_netloc src) as [netloc|e]; monad;
    [|discriminate].
  destruct (extract_height_width alt_text) as [[h w]|e]; monad;
    [|discriminate].
  intros _. now exists netloc, h, w.
Qed.


(** C3, as the code has it: the size hint is read from what follows the
    last [|] (the whole alt text when there is none).  A segment without
    [x] is the height alone; a segment with exactly one [x] is height and
    width around it.  A component is checked by [int] unless it is empty,
    and when a checked component is refused both are dropped, the image tag
    then carrying no size attribute.  Nothing is raised in these cases. *)
Theorem extract_height_width_one_x (alt_text : str) :
  let parts := List.last (split_on 124 alt_text) [] in
  (contains 124 alt_text = false -> parts = alt_text) /\
  (forall pre seg, alt_text = pre ++ 124 :: seg ->
     contains 124 seg = false -> parts = seg) /\
  (contains 120 parts = false ->
   extract_height_width alt_text
   = Ok (if (if str_truthy parts then int_ok parts else true)
         then (Some parts, None) else (None, None))) /\
  (forall h w, parts = h ++ 120 :: w ->
     contains 120 h = false -> contains 120 w = false ->
     extract_height_width alt_text
     = Ok (if (if str_truthy h then int_ok h else true)
              && (if str_truthy w then int_ok w else true)
           then (Some h, Some w) else (None, None))) /\
  (forall src title r netloc,
     urlparse_netloc src = Ok netloc ->
     extract_height_width alt_text = Ok (None, None) ->
     exists reference r',
       image src title alt_text r
       = Ok (lit "<ac:image>" ++ reference ++ lit "</ac:image>", r')).
Proof.
  intros parts. repeat split.
  - apply last_split_whole.
  - intros pre seg -> Hseg. now apply last_split_after.
  - apply extract_no_x.
  - intros h w Hparts Hh Hw. now apply extract_one_x.
  - intros src title r netloc Hnet Hext.
    rewrite (image_shape _ _ _ _ _ _ _ Hnet Hext).
    destruct (str_truthy netloc); eexists _, _; reflexivity.
Qed.

(** ** The callbacks in sequence *)

Lemma local_srcs_app (cs1 cs2 : list call) :
  local_srcs (cs1 ++ cs2) = local_srcs cs1 ++ local_srcs cs2.
Proof. apply flat_map_app. Qed.

(** The effect of one call on the renderer. *)
Lemma dispatch_state (c : call) (r r' : renderer) (out : str) :
  dispatch c r = Ok (out, r') ->
  attachments r' = attachments r ++ local_srcs [c] /\
  has_toc r' = has_toc r || is_header c /\
  authors r' = authors r /\ sidebar r' = sidebar r.
Proof.
  destruct c as [text level raw|code lang|src title alt_text];
    cbn [dispatch local_srcs flat_map is_header].
  - intros [= <- <-]. cbn. rewrite !app_nil_r, orb_true_r. easy.
  - destruct (block_code code lang); monad; [|discriminate].
    intros [= <- <-]. rewrite !app_nil_r, orb_false_r. easy.
  - intros Himg.
    destruct (image_inv _ _ _ _ _ Himg) as (netloc & h & w & Hnet & Hext).
    rewrite (image_shape _ _ _ _ _ _ _ Hnet Hext) in Himg. rewrite Hnet.
    rewrite orb_false_r.
    destruct netloc as [|n netloc]; cbn [str_truthy] in Himg;
      injection Himg as <- <-; cbn; rewrite ?app_nil_r; easy.
Qed.

(** The effect of a sequence of calls on the renderer. *)
Lemma run_calls_state (cs : list call) (r r' : renderer) (outs : list str) :
  run_calls cs r = Ok (outs, r') ->
  attachments r' = attachments r ++ local_srcs cs /\
  has_toc r' = has_toc r || existsb is_header cs /\
  authors r' = authors r /\ sidebar r' = sidebar r.
Proof.
  revert r outs. induction cs as [|c cs IH]; intros r outs; cbn [run_calls].
  - intros [= <- <-]. cbn. rewrite app_nil_r, orb_false_r. easy.
  - destruct (dispatch c r) as [[out r1]|e] eqn:Hc; monad; [|discriminate].
    destruct (run_calls cs r1) as [[outs1 r2]|e] eqn:Hcs; monad;
      [|discriminate].
    intros [= <- <-].
    destruct (dispatch_state _ _ _ _ Hc) as (Ha1 & Ht1 & Hau1 & Hs1).
    destruct (IH _ _ Hcs) as (Ha2 & Ht2 & Hau2 & Hs2).
    change (c :: cs) with ([c] ++ cs). rewrite local_srcs_app.
    cbn [existsb app].
    rewrite Ha2, Ha1, Ht2, Ht1, Hau2, Hau1, Hs2, Hs1.
    now rewrite <- app_assoc, orb_assoc.
Qed.

Lemma dispatch_returns (c : call) (r : renderer) :
  call_returns c = true -> exists out r', dispatch c r = Ok (out, r').
Proof.
  destruct c as [text level raw|code lang|src title alt_text];
    cbn [dispatch call_returns]; intros H.
  - eexists _, _; reflexivity.
  - unfold block_code. rewrite format_code. monad. eexists _, _; reflexivity.
  - destruct (urlparse_netloc src) as [netloc|] eqn:Hnet; [|discriminate].
    destruct (extract_height_width alt_text) as [[h w]|] eqn:Hext;
      [|discriminate].
    rewrite (image_shape _ _ _ _ _ _ _ Hnet Hext).
    destruct (str_truthy netloc); eexists _, _; reflexivity.
Qed.

(** A sequence of calls that all return runs to its end. *)
Lemma run_calls_returns (cs : list call) (r : renderer) :
  forallb call_returns cs = true ->
  exists outs r', run_calls cs r = Ok (outs, r').
Proof.
  revert r. induction cs as [|c cs IH]; intros r H; cbn [run_calls].
  - eexists _, _; reflexivity.
  - cbn [forallb] in H. apply andb_prop in H as [Hc Hcs].
    destruct (dispatch_returns c r Hc) as (out & r1 & ->). monad.
    destruct (IH r1 Hcs) as (outs & r2 & ->). monad.
    eexists _, _; reflexivity.
Qed.

(** [convtoconf], step by step. *)
Lemma convtoconf_inv (md : str) (fm : document) (page : str)
    (atts : list str) :
  convtoconf md fm = Ok (page, atts) ->
  exists d outs r,
    front_matter_dict fm = Some d /\
    run_calls (mistune_calls md)
      (new_renderer (dict_get d (lit "author_keys") (PyList []))
                    (dict_get d (lit "sidebar") (PyBool false)))
    = Ok (outs, r) /\
    layout (mistune_output md outs) r = Ok page /\
    atts = attachments r.
Proof.
  unfold convtoconf, mistune_markdown.
  destruct fm as [|m|v]; monad; try discriminate.
  - destruct (run_calls _ _) as [[outs r]|e] eqn:Hrun; monad;
      [|discriminate].
    destruct (layout _ r) as [p|e] eqn:Hlay; monad; [|discriminate].
    intros [= <- <-]. now exists ∅, outs, r.
  - destruct (run_calls _ _) as [[outs r]|e] eqn:Hrun; monad;
      [|discriminate].
    destruct (layout _ r) as [p|e] eqn:Hlay; monad; [|discriminate].
    intros [= <- <-]. now exists m, outs, r.
Qed.

Lemma layout_inv (content page : str) (r : renderer) :
  layout content r = Ok page ->
  exists authors_html,
    render_authors r = Ok authors_html /\
    page = page_markup (has_toc r) (truthy (sidebar r)) content authors_html.
Proof.
  intros H. destruct (render_authors r) as [a|e] eqn:Ha.
  - rewrite (layout_shape _ _ _ Ha) in H. injection H as <-. now exists a.
  - unfold layout in H. rewrite Ha in H. discriminate H.
Qed.


(** ** Images and attachments *)

Lemma basename_after_slash (dir file : str) :
  contains 47 file = false ->
  basename (dir ++ 47 :: file) = file /\ basename file = file.
Proof.
  intros H. unfold basename. split.
  - now apply last_split_after.
  - now apply last_split_whole.
Qed.

(** The calls that return: an image call that returns has a source that
    [urlparse] accepted and a size hint that was read, and gives the URL
    reference and the same renderer for a non-empty network location, the
    attachment reference on the basename and one more attachment
    otherwise; a run that returns has added the sources of its images
    with an empty network location, in call order. *)
Theorem image_attachments :
  (forall src title alt_text r tag r',
     image src title alt_text r = Ok (tag, r') ->
     exists netloc h w,
       urlparse_netloc src = Ok netloc /\
       extract_height_width alt_text = Ok (h, w) /\
       (netloc <> [] ->
        tag = image_markup h w (url_reference src) /\ r' = r) /\
       (netloc = [] ->
        tag = image_markup h w (attachment_reference (basename src)) /\
        attachments r' = attachments r ++ [src])) /\
  (forall dir file, contains 47 file = false ->
     basename (dir ++ 47 :: file) = file /\ basename file = file) /\
  (forall cs r outs r',
     run_calls cs r = Ok (outs, r') ->
     attachments r' = attachments r ++ local_srcs cs) /\
  (forall md fm page atts,
     convtoconf md fm = Ok (page, atts) ->
     atts = local_srcs (mistune_calls md)) /\
  (forall cs r, forallb call_returns cs = true ->
     exists outs r', run_calls cs r = Ok (outs, r')).
Proof.
  split; [|split; [|split; [|split]]].
  - intros src title alt_text r tag r' Himg.
    destruct (image_inv _ _ _ _ _ Himg) as (netloc & h & w & Hnet & Hext).
    exists netloc, h, w. split; [exact Hnet|]. split; [exact Hext|].
    rewrite (image_shape _ _ _ _ _ _ _ Hnet Hext) in Himg.
    split; intros Hn.
    + apply str_truthy_true in Hn. rewrite Hn in Himg.
      now injection Himg as <- <-.
    + subst netloc. cbn [str_truthy] in Himg.
      now injection Himg as <- <-.
  - apply basename_after_slash.
  - intros cs r outs r' Hrun. now apply (run_calls_state _ _ _ _ Hrun).
  - intros md fm page atts Hconv.
    destruct (convtoconf_inv _ _ _ _ Hconv)
      as (d & outs & r & _ & Hrun & _ & ->).
    now destruct (run_calls_state _ _ _ _ Hrun) as (-> & _).
  - apply run_calls_returns.
Qed.

(** ** The scan and [occurs] *)

Lemma scan_app (tail : str) (m : option str) (a b : str) :
  scan tail m (a ++ b)
  = match scan tail m a with
    | None => None
    | Some m' => scan tail m' b
    end.
Proof.
  revert m. induction a as [|c a IH]; intros m; [reflexivity|].
  cbn [app scan]. destruct (scan_step tail m c); [apply IH | reflexivity].
Qed.

(** The scan finds the tag exactly when it occurs, or when the text goes
    on with what the state still expects. *)
Lemma scan_sound (tail : str) :
  tail <> [] -> contains 60 tail = false ->
  forall (s : str) (m : option str),
    match m with
    | Some rest => rest <> [] /\ contains 60 rest = false
    | None => True
    end ->
    scan_found (scan tail m s)
    = (match m with Some rest => starts_with rest s | None => false end)
      || occurs (60 :: tail) s.
Proof.
  intros Hne Htail. induction s as [|c s IH]; intros m Hm.
  - destruct m as [[|x rest]|]; [now destruct Hm | reflexivity..].
  - cbn [scan occurs starts_with]. unfold scan_step.
    rewrite (N.eqb_sym 60 c).
    destruct (c =? 60) eqn:Hc.
    + apply N.eqb_eq in Hc. subst c.
      destruct tail as [|t0 tail']; [contradiction|]. cbn [scan_enter].
      rewrite IH by (split; [discriminate | exact Htail]).
      cbn [andb].
      destruct m as [[|x rest]|]; [now destruct Hm| |reflexivity].
      destruct Hm as [_ Hm]. unfold contains in Hm. cbn [existsb] in Hm.
      apply orb_false_elim in Hm as [Hx _].
      cbn [starts_with]. rewrite (N.eqb_sym x 60), Hx. reflexivity.
    + cbn [andb orb].
      destruct m as [[|x rest]|]; [now destruct Hm| |].
      * destruct Hm as [_ Hm]. unfold contains in Hm. cbn [existsb] in Hm.
        apply orb_false_elim in Hm as [_ Hrest].
        cbn [starts_with]. rewrite (N.eqb_sym x c).
        destruct (c =? x).
        -- destruct rest as [|y rest']; cbn [scan_enter andb].
           ++ now destruct s.
           ++ now rewrite IH by (split; [discriminate | exact Hrest]).
        -- cbn [andb]. now rewrite IH.
      * now rewrite IH.
Qed.

Lemma toc_macro_scan (s : str) :
  occurs toc_macro s = scan_found (scan toc_macro_tail None s).
Proof.
  rewrite (scan_sound toc_macro_tail) by (reflexivity || discriminate || exact I).
  reflexivity.
Qed.

(** A text without [<] leaves the scan outside any tag. *)
Lemma scan_plain (tail k : str) :
  contains 60 k = false -> scan tail None k = Some None.
Proof.
  unfold contains. induction k as [|c k IH]; intros H; [reflexivity|].
  cbn [existsb] in H. apply orb_false_elim in H as [Hc H].
  cbn [scan]. unfold scan_step. rewrite (N.eqb_sym c 60), Hc. now apply IH.
Qed.

(** After any state, a [<] starts the comparison anew. *)
Lemma scan_restart (tail : str) (m : option str) (s : str) :
  scan tail m (60 :: s) = scan tail None (60 :: s).
Proof. reflexivity. Qed.


(** ** The table of contents *)

Lemma starts_with_app (p a b : str) :
  starts_with p a = true -> starts_with p (a ++ b) = true.
Proof.
  revert a. induction p as [|x p IH]; intros a H; [reflexivity|].
  destruct a as [|y a]; [discriminate|]. cbn [starts_with app] in *.
  apply andb_prop in H as [Hxy H]. now rewrite Hxy, IH.
Qed.

Lemma occurs_app_l (p a b : str) :
  occurs p a = true -> occurs p (a ++ b) = true.
Proof.
  induction a as [|c a IH]; intros H.
  - cbn [occurs] in H. rewrite orb_false_r in H.
    destruct p; [|discriminate]. now destruct b.
  - cbn [occurs app] in *. apply orb_prop in H as [H|H].
    + apply (starts_with_app _ _ b) in H. cbn [app] in H. now rewrite H.
    + now rewrite (IH H), orb_true_r.
Qed.

Lemma occurs_app_r (p a b : str) :
  occurs p b = true -> occurs p (a ++ b) = true.
Proof.
  intros H. induction a as [|c a IH]; [exact H|].
  cbn [occurs app]. now rewrite IH, orb_true_r.
Qed.

Lemma toc_fragment_macro : occurs toc_macro toc_fragment = true.
Proof. vm_compute. reflexivity. Qed.

(** With the table of contents composed in, the page holds the macro. *)
Lemma page_markup_toc (two_columns : bool) (body authors_html : str) :
  occurs toc_macro (page_markup true two_columns body authors_html) = true.
Proof.
  unfold page_markup. destruct two_columns.
  - apply occurs_app_l. unfold column_macro.
    do 3 apply occurs_app_r. do 2 apply occurs_app_l.
    exact toc_fragment_macro.
  - apply occurs_app_l. exact toc_fragment_macro.
Qed.

(** ** A page without the [toc] macro *)

(** The scan run over the literal that starts the text. *)
Ltac scan_literal :=
  rewrite scan_app;
  match goal with
  | |- context [scan ?t ?m (lit ?l)] =>
      let v := eval vm_compute in (scan t m (lit l)) in
      change (scan t m (lit l)) with v; cbv beta iota
  end.

Lemma scan_restart_app (tail : str) (m : option str) (l rest : str) :
  hd_error l = Some 60 -> scan tail m (l ++ rest) = scan tail None (l ++ rest).
Proof. destruct l as [|c l]; [discriminate|]. now intros [= ->]. Qed.

Lemma scan_author_entry (k rest : str) :
  contains 60 k = false ->
  scan toc_macro_tail None (author_entry k ++ rest)
  = scan toc_macro_tail None rest.
Proof.
  intros Hk. unfold author_entry, profile_picture, user_link.
  rewrite <- !app_assoc.
  scan_literal. rewrite scan_app, (scan_plain _ k Hk).
  scan_literal. scan_literal. scan_literal.
  rewrite scan_app, (scan_plain _ k Hk).
  scan_literal. reflexivity.
Qed.

Lemma scan_entries (keys : list str) (rest : str) :
  Forall (fun k => contains 60 k = false) keys ->
  scan toc_macro_tail None
       (join (lit "<br />") (map author_entry keys) ++ rest)
  = scan toc_macro_tail None rest.
Proof.
  induction 1 as [|k keys Hk Hkeys IH]; [reflexivity|].
  destruct keys as [|k2 keys].
  - cbn [map join]. now apply scan_author_entry.
  - change (join (lit "<br />") (map author_entry (k :: k2 :: keys)))
      with (author_entry k ++ lit "<br />"
            ++ join (lit "<br />") (map author_entry (k2 :: keys))).
    rewrite <- !app_assoc. rewrite scan_author_entry by exact Hk.
    scan_literal. exact IH.
Qed.

Lemma scan_authors_fragment (keys : list str) (rest : str) :
  Forall (fun k => contains 60 k = false) keys ->
  scan toc_macro_tail None (authors_fragment keys ++ rest)
  = scan toc_macro_tail None rest.
Proof.
  intros Hkeys. unfold authors_fragment. rewrite <- !app_assoc.
  scan_literal. rewrite scan_entries by exact Hkeys.
  scan_literal. reflexivity.
Qed.

Lemma scan_authors_restart (m : option str) (keys : list str) (rest : str) :
  scan toc_macro_tail m (authors_fragment keys ++ rest)
  = scan toc_macro_tail None (authors_fragment keys ++ rest).
Proof.
  unfold authors_fragment. rewrite <- !app_assoc.
  now apply scan_restart_app.
Qed.

(** Without the TOC fragment, the page holds the [toc] macro only if the
    body or an author key brings it: a body without the macro and author
    keys without [<] give a page without the macro. *)
Lemma page_without_toc (two_columns : bool) (body : str) (keys : list str) :
  occurs toc_macro body = false ->
  Forall (fun k => contains 60 k = false) keys ->
  occurs toc_macro (page_markup false two_columns body (authors_fragment keys))
  = false.
Proof.
  intros Hbody Hkeys. rewrite toc_macro_scan in Hbody |- *.
  destruct (scan toc_macro_tail None body) as [m|] eqn:Hscan;
    [clear Hbody | discriminate Hbody].
  unfold page_markup. destruct two_columns; cbn [app].
  - unfold column_macro. rewrite <- !app_assoc.
    scan_literal. scan_literal. scan_literal.
    rewrite scan_authors_fragment by exact Hkeys.
    scan_literal. scan_literal. scan_literal. scan_literal.
    rewrite scan_app, Hscan.
    rewrite (scan_restart_app _ m (lit "</ac:rich-text-body>
</ac:structured-macro>") []) by reflexivity.
    reflexivity.
  - rewrite scan_app, Hscan.
    rewrite <- (app_nil_r (authors_fragment keys)).
    rewrite scan_authors_restart.
    now rewrite scan_authors_fragment.
Qed.


(** C6: [has_toc] ends true exactly when the parser called the header
    callback during the conversion, and the layout puts the TOC fragment
    into the page exactly then: with a header call the page holds the
    [toc] macro; without one the page is made of the body and the Authors
    fragment alone (in their columns when there is a sidebar), so that it
    holds no [toc] macro unless the body or an author key brings one. *)
Theorem toc_iff_header (md : str) (fm : document) (page : str)
    (atts : list str) :
  convtoconf md fm = Ok (page, atts) ->
  exists d outs r authors_html,
    front_matter_dict fm = Some d /\
    run_calls (mistune_calls md)
      (new_renderer (dict_get d (lit "author_keys") (PyList []))
                    (dict_get d (lit "sidebar") (PyBool false)))
    = Ok (outs, r) /\
    render_authors r = Ok authors_html /\
    (has_toc r = true <->
     exists text level raw, In (CallHeader text level raw) (mistune_calls md)) /\
    page = page_markup (has_toc r) (truthy (sidebar r))
                       (mistune_output md outs) authors_html /\
    (has_toc r = true -> occurs toc_macro page = true) /\
    (has_toc r = false ->
     page = if truthy (sidebar r)
            then column_macro (lit "30%") authors_html
                 ++ column_macro (lit "800px") (mistune_output md outs)
            else mistune_output md outs ++ authors_html) /\
    (has_toc r = false ->
     forall keys, authors r = PyList keys ->
       Forall (fun k => contains 60 k = false) keys ->
       occurs toc_macro (mistune_output md outs) = false ->
       occurs toc_macro page = false).
Proof.
  intros Hconv.
  destruct (convtoconf_inv _ _ _ _ Hconv)
    as (d & outs & r & Hd & Hrun & Hlay & _).
  destruct (layout_inv _ _ _ Hlay) as (authors_html & Hauth & Hpage).
  exists d, outs, r, authors_html.
  destruct (run_calls_state _ _ _ _ Hrun) as (_ & Htoc & _).
  cbn [new_renderer has_toc orb] in Htoc.
  repeat split; try assumption.
  - rewrite Htoc. intros Hex. apply existsb_exists in Hex as (c & Hin & Hc).
    destruct c as [text level raw| |]; try discriminate.
    now exists text, level, raw.
  - intros (text & level & raw & Hin). rewrite Htoc.
    apply existsb_exists. now exists (CallHeader text level raw).
  - intros Ht. rewrite Hpage, Ht. apply page_markup_toc.
  - intros Ht. rewrite Hpage, Ht. reflexivity.
  - intros Ht keys Hkeys Hplain Hbody.
    rewrite (render_authors_list _ _ Hkeys) in Hauth.
    injection Hauth as <-. rewrite Hpage, Ht.
    now apply page_without_toc.
Qed.

(** ** Front matter that is absent or does not load *)

Lemma parse_loader (text : str) :
  parse text =
    match yaml_load (fst (split_front_matter text)) with
    | Ok front_matter => Ok (front_matter, snd (split_front_matter text))
    | Raise e => Raise e
    end.
Proof. unfold parse, split_front_matter. cbn [fst snd]. reflexivity. Qed.

(** C4, as the code has it: front matter that loads as [None], or as a
    mapping without the two keys, gives the defaults (no author, no
    sidebar), and the post is converted whenever the callbacks return.  A
    buffer the loader refuses makes [parse] raise the loader's exception,
    and front matter that is no mapping makes [convtoconf] raise. *)
Theorem front_matter_defaults (md : str) :
  convtoconf md DocNone = convtoconf md (DocMapping ∅) /\
  (forall m : gmap str pyval,
     m !! lit "author_keys" = None -> m !! lit "sidebar" = None ->
     convtoconf md (DocMapping m) = convtoconf md DocNone) /\
  (forall outs r,
     run_calls (mistune_calls md) (new_renderer (PyList []) (PyBool false))
     = Ok (outs, r) ->
     convtoconf md DocNone
     = Ok (page_markup (has_toc r) false (mistune_output md outs)
             (lit "<h1>Authors</h1><p></p>"),
           attachments r)) /\
  (forallb call_returns (mistune_calls md) = true ->
   exists page atts, convtoconf md DocNone = Ok (page, atts)) /\
  (forall text front_matter,
     yaml_load (fst (split_front_matter text)) = Ok front_matter ->
     parse text = Ok (front_matter, snd (split_front_matter text))) /\
  (forall text e,
     yaml_load (fst (split_front_matter text)) = Raise e ->
     parse text = Raise e) /\
  (forall v, convtoconf md (DocOther v) = Raise AttributeError).
Proof.
  assert (Hrun : forall outs r,
    run_calls (mistune_calls md) (new_renderer (PyList []) (PyBool false))
    = Ok (outs, r) ->
    convtoconf md DocNone
    = Ok (page_markup (has_toc r) false (mistune_output md outs)
            (lit "<h1>Authors</h1><p></p>"),
          attachments r)).
  { intros outs r H. unfold convtoconf, mistune_markdown. monad.
    change (dict_get ∅ (lit "author_keys") (PyList [])) with (PyList []).
    change (dict_get ∅ (lit "sidebar") (PyBool false)) with (PyBool false).
    rewrite H. monad.
    destruct (run_calls_state _ _ _ _ H) as (_ & _ & Hau & Hsb).
    cbn [new_renderer authors sidebar] in Hau, Hsb.
    rewrite (layout_shape _ (authors_fragment [])).
    - monad. now rewrite Hsb.
    - now apply render_authors_list. }
  repeat split.
  - intros m Ha Hs. unfold convtoconf, dict_get. monad.
    now rewrite Ha, Hs, !lookup_empty.
  - exact Hrun.
  - intros Hok.
    destruct (run_calls_returns _
                (new_renderer (PyList []) (PyBool false)) Hok)
      as (outs & r & H).
    rewrite (Hrun _ _ H). eexists _, _; reflexivity.
  - intros text front_matter H. now rewrite parse_loader, H.
  - intros text e H. now rewrite parse_loader, H.
Qed.


(** * Further properties *)

(** ** [split], [join] and [count] *)

Lemma split_on_length (sep : N) (s : str) :
  List.length (split_on sep s) = S (count_char sep s).
Proof.
  unfold count_char. induction s as [|c s IH]; [reflexivity|].
  cbn [split_on List.filter]. rewrite (N.eqb_sym sep c).
  destruct (c =? sep).
  - cbn [List.length]. now rewrite IH.
  - destruct (split_on sep s); cbn [List.length] in *; [discriminate|exact IH].
Qed.

Lemma contains_count (sep : N) (s : str) :
  contains sep s = false <-> count_char sep s = 0%nat.
Proof.
  unfold contains, count_char. induction s as [|c s IH]; [easy|].
  cbn [existsb List.filter]. destruct (sep =? c); cbn [orb List.length].
  - split; discriminate.
  - exact IH.
Qed.

Lemma split_on_join (sep : N) (s : str) :
  join [sep] (split_on sep s) = s.
Proof.
  induction s as [|c s IH]; [reflexivity|].
  cbn [split_on]. destruct (c =? sep) eqn:Hc.
  - apply N.eqb_eq in Hc. subst c.
    pose proof (split_on_nonempty sep s) as Hne.
    destruct (split_on sep s) as [|p ps]; [contradiction|].
    change (join [sep] ([] :: p :: ps)) with ([] ++ [sep] ++ join [sep] (p :: ps)).
    now rewrite IH.
  - destruct (split_on sep s) as [|p [|q ps]]; cbn in *; congruence.
Qed.

Lemma split_on_parts (sep : N) (s : str) :
  Forall (fun p => contains sep p = false) (split_on sep s).
Proof.
  unfold contains. induction s as [|c s IH]; [repeat constructor|].
  cbn [split_on]. destruct (c =? sep) eqn:Hc.
  - constructor; [reflexivity | exact IH].
  - destruct (split_on sep s) as [|p ps]; [repeat constructor|].
    + cbn. now rewrite (N.eqb_sym sep c), Hc.
    + inversion IH; subst. constructor; [|assumption].
      cbn [existsb]. now rewrite (N.eqb_sym sep c), Hc.
Qed.

Lemma join_last (sep : N) (parts : list str) :
  parts <> [] ->
  exists pre, join [sep] parts = pre ++ List.last parts [] /\
              (pre = [] \/ exists d, pre = d ++ [sep]).
Proof.
  induction parts as [|p [|q ps] IH]; intros Hne; [contradiction| |].
  - exists []. split; [reflexivity | now left].
  - destruct IH as (pre & Hj & Hpre); [discriminate|].
    exists (p ++ [sep] ++ pre). split.
    + change (join [sep] (p :: q :: ps))
        with (p ++ [sep] ++ join [sep] (q :: ps)).
      rewrite Hj, <- !app_assoc. reflexivity.
    + right. destruct Hpre as [->|(d & ->)].
      * exists p. now rewrite app_nil_r.
      * exists (p ++ [sep] ++ d). now rewrite <- !app_assoc.
Qed.

(** What follows the last separator holds no separator and ends the
    string, right after a separator when there is one. *)
Lemma last_split_spec (sep : N) (s : str) :
  contains sep (List.last (split_on sep s) []) = false /\
  exists pre, s = pre ++ List.last (split_on sep s) [] /\
              (pre = [] \/ exists d, pre = d ++ [sep]).
Proof.
  pose proof (split_on_nonempty sep s) as Hne. split.
  - pose proof (split_on_parts sep s) as Hall.
    rewrite List.Forall_forall in Hall. apply Hall.
    destruct (List.exists_last Hne) as (init & t & ->).
    rewrite List.last_last. apply in_or_app. right. now left.
  - destruct (join_last sep _ Hne) as (pre & Hj & Hpre).
    rewrite split_on_join in Hj. now exists pre.
Qed.

(** X12: the file name of an attachment reference holds no slash and is
    the end of the image source, which it follows either from the start or
    right after a slash. *)
Theorem basename_suffix (src : str) :
  contains 47 (basename src) = false /\
  exists dir, src = dir ++ basename src /\
              (dir = [] \/ exists d, dir = d ++ [47]).
Proof. apply last_split_spec. Qed.

(** ** When the size hint raises *)

(** X4: reading the size hint raises exactly when the text after the last
    [|] of the alt text (the whole alt text when it has none) holds two or
    more [x], and the exception is then [ValueError]: whatever [int]
    accepts, nothing else makes it raise. *)
Theorem extract_raises_iff (alt_text : str) :
  let parts := List.last (split_on 124 alt_text) [] in
  (extract_height_width alt_text = Raise ValueError <->
   (2 <= count_char 120 parts)%nat) /\
  (forall e, extract_height_width alt_text = Raise e -> e = ValueError).
Proof.
  intros parts. unfold extract_height_width. fold parts.
  pose proof (split_on_length 120 parts) as Hlen.
  destruct (contains 120 parts) eqn:Hc.
  - assert (Hpos : count_char 120 parts <> 0%nat).
    { intros H0. apply contains_count in H0. congruence. }
    destruct (split_on 120 parts) as [|a [|b [|c l]]]; cbn [List.length] in Hlen;
      monad.
    + lia.
    + lia.
    + split; [|intros e].
      * split; [|lia].
        destruct (component_ok (Some a) && component_ok (Some b)); discriminate.
      * destruct (component_ok (Some a) && component_ok (Some b)); discriminate.
    + split; [split; [lia | reflexivity] | now intros e [= <-]].
  - apply contains_count in Hc. monad.
    split; [|intros e].
    + split; [|lia].
      destruct (component_ok (Some parts) && component_ok None); discriminate.
    + destruct (component_ok (Some parts) && component_ok None); discriminate.
Qed.

(** X5: what the size hint is when it is read: a height and a width are
    the two sides of the single [x] of the segment, a height alone is the
    whole segment without [x], every component returned is empty or
    accepted by [int], and both are dropped only when a non-empty
    component is refused; a width never comes without a height. *)
Theorem extract_outcome (alt_text : str) :
  let parts := List.last (split_on 124 alt_text) [] in
  match extract_height_width alt_text with
  | Ok (Some h, Some w) =>
      parts = h ++ 120 :: w /\
      contains 120 h = false /\ contains 120 w = false /\
      (h = [] \/ int_ok h = true) /\ (w = [] \/ int_ok w = true)
  | Ok (Some h, None) =>
      parts = h /\ contains 120 h = false /\ (h = [] \/ int_ok h = true)
  | Ok (None, None) =>
      exists s, In s (split_on 120 parts) /\ s <> [] /\ int_ok s = false
  | Ok (None, Some _) => False
  | Raise _ => True
  end.
Proof.
  intros parts. unfold extract_height_width. fold parts.
  assert (Hcomp : forall s, component_ok (Some s) = true ->
                            s = [] \/ int_ok s = true).
  { intros [|c s]; cbn; [now left | now right]. }
  assert (Hbad : forall s, component_ok (Some s) = false ->
                           s <> [] /\ int_ok s = false).
  { intros [|c s]; cbn; [discriminate | easy]. }
  destruct (contains 120 parts) eqn:Hc.
  - pose proof (split_on_join 120 parts) as Hj.
    pose proof (split_on_parts 120 parts) as Hall.
    destruct (split_on 120 parts) as [|a [|b [|c l]]] eqn:Hs; monad;
      try exact I.
    inversion Hall as [|? ? Ha Hall']; subst.
    inversion Hall' as [|? ? Hb _]; subst.
    destruct (component_ok (Some a)) eqn:Ea;
      [destruct (component_ok (Some b)) eqn:Eb|]; cbn [andb].
    + repeat split; try assumption; [now rewrite <- Hj | now apply Hcomp..].
    + exists b. split; [right; now left | now apply Hbad].
    + exists a. split; [now left | now apply Hbad].
  - monad. change (component_ok None) with true. rewrite andb_true_r.
    destruct (component_ok (Some parts)) eqn:E; cbv beta iota.
    + split; [reflexivity|]. split; [exact Hc | now apply Hcomp].
    + exists parts. rewrite split_on_no_sep by exact Hc.
      split; [now left | now apply Hbad].
Qed.


(** ** When a callback raises, and what it leaves alone *)

(** X6: [image] raises exactly when [urlparse] refuses the source, or
    accepts it while the size hint raises, and with that very exception;
    the formatting of the tag itself never raises. *)
Theorem image_raises_iff (src : str) (title : option str) (alt_text : str)
    (r : renderer) (e : exn) :
  image src title alt_text r = Raise e <->
  urlparse_netloc src = Raise e \/
  ((exists netloc, urlparse_netloc src = Ok netloc) /\
   extract_height_width alt_text = Raise e).
Proof.
  destruct (urlparse_netloc src) as [netloc|e1] eqn:Hnet.
  - destruct (extract_height_width alt_text) as [[h w]|e2] eqn:Hext.
    + rewrite (image_shape _ _ _ _ _ _ _ Hnet Hext).
      split; [discriminate|]. intros [H|[_ H]]; discriminate H.
    + unfold image. rewrite Hnet, Hext. monad.
      split; [intros [= ->]; right; split; [now exists netloc | reflexivity]|].
      intros [H|[_ [= ->]]]; [discriminate H | reflexivity].
  - unfold image. rewrite Hnet. monad.
    split; [intros [= ->]; now left|].
    intros [[= ->]|[[n Hn] _]]; [reflexivity | discriminate Hn].
Qed.

Lemma run_calls_length (cs : list call) (r r' : renderer) (outs : list str) :
  run_calls cs r = Ok (outs, r') -> List.length outs = List.length cs.
Proof.
  revert r r' outs.
  induction cs as [|c cs IH]; intros r r' outs; cbn [run_calls].
  - now intros [= <- _].
  - destruct (dispatch c r) as [[out r1]|e]; monad; [|discriminate].
    destruct (run_calls cs r1) as [[outs1 r2]|e] eqn:Hcs; monad;
      [|discriminate].
    intros [= <- _]. cbn [List.length]. f_equal. exact (IH _ _ _ Hcs).
Qed.

(** X7: a run of callbacks that returns gives one fragment per call,
    never touches [authors] or [sidebar], never resets [has_toc], and only
    appends to the attachments; without a header call [has_toc] is as
    before, and without an image call so are the attachments. *)
Theorem callbacks_frame (cs : list call) (r r' : renderer) (outs : list str) :
  run_calls cs r = Ok (outs, r') ->
  List.length outs = List.length cs /\
  authors r' = authors r /\ sidebar r' = sidebar r /\
  (has_toc r = true -> has_toc r' = true) /\
  (existsb is_header cs = false -> has_toc r' = has_toc r) /\
  (exists added, attachments r' = attachments r ++ added) /\
  ((forall src title alt_text, ~ In (CallImage src title alt_text) cs) ->
   attachments r' = attachments r).
Proof.
  intros Hrun.
  destruct (run_calls_state _ _ _ _ Hrun) as (Hatt & Htoc & Hau & Hsb).
  split; [exact (run_calls_length _ _ _ _ Hrun)|].
  repeat split; try assumption.
  - intros Ht. now rewrite Htoc, Ht.
  - intros Hno. now rewrite Htoc, Hno, orb_false_r.
  - now exists (local_srcs cs).
  - intros Hno. rewrite Hatt.
    assert (Hnil : local_srcs cs = []).
    { clear -Hno. induction cs as [|c cs IH]; [reflexivity|].
      change (c :: cs) with ([c] ++ cs). rewrite local_srcs_app, IH.
      - destruct c as [| |src title alt_text]; try reflexivity.
        exfalso. apply (Hno src title alt_text). now left.
      - intros src title alt_text Hin. apply (Hno src title alt_text).
        now right. }
    now rewrite Hnil, app_nil_r.
Qed.


(** ** The outcome of [convtoconf] *)

Lemma render_authors_keys (r : renderer) :
  render_authors r = (keys ← iterate (authors r); Ok (authors_fragment keys)).
Proof.
  unfold render_authors. destruct (iterate (authors r)) as [keys|e]; monad;
    [|reflexivity].
  rewrite (traverse_ok _ author_entry) by apply format_author. monad.
  apply format_authors_heading.
Qed.

Lemma run_calls_returns_inv (cs : list call) (r r' : renderer)
    (outs : list str) :
  run_calls cs r = Ok (outs, r') -> forallb call_returns cs = true.
Proof.
  revert r r' outs.
  induction cs as [|c cs IH]; intros r r' outs; cbn [run_calls forallb];
    [reflexivity|].
  destruct (dispatch c r) as [[out r1]|e] eqn:Hc; monad; [|discriminate].
  destruct (run_calls cs r1) as [[outs1 r2]|e] eqn:Hcs; monad;
    [|discriminate].
  intros _. rewrite (IH _ _ _ Hcs), andb_true_r.
  destruct c as [| |src title alt_text]; try reflexivity.
  cbn [dispatch] in Hc.
  destruct (image_inv _ _ _ _ _ Hc) as (netloc & h & w & Hnet & Hext).
  cbn [call_returns]. now rewrite Hnet, Hext.
Qed.

(** [convtoconf] step by step, for every front matter. *)
Lemma convtoconf_closed (md : str) (fm : document) :
  convtoconf md fm =
  match front_matter_dict fm with
  | None => Raise AttributeError
  | Some d =>
      match run_calls (mistune_calls md)
              (new_renderer (dict_get d (lit "author_keys") (PyList []))
                            (dict_get d (lit "sidebar") (PyBool false))) with
      | Raise e => Raise e
      | Ok (outs, r) =>
          match iterate (authors r) with
          | Raise e => Raise e
          | Ok keys =>
              Ok (page_markup (has_toc r) (truthy (sidebar r))
                    (mistune_output md outs) (authors_fragment keys),
                  attachments r)
          end
      end
  end.
Proof.
  assert (Hd : forall d,
    (let author_keys := dict_get d (lit "author_keys") (PyList []) in
     let sidebar := dict_get d (lit "sidebar") (PyBool false) in
     let renderer := new_renderer author_keys sidebar in
     '(content_html, renderer) ← mistune_markdown md renderer;
     page_html ← layout content_html renderer;
     Ok (page_html, attachments renderer))
    = match run_calls (mistune_calls md)
              (new_renderer (dict_get d (lit "author_keys") (PyList []))
                            (dict_get d (lit "sidebar") (PyBool false))) with
      | Raise e => Raise e
      | Ok (outs, r) =>
          match iterate (authors r) with
          | Raise e => Raise e
          | Ok keys =>
              Ok (page_markup (has_toc r) (truthy (sidebar r))
                    (mistune_output md outs) (authors_fragment keys),
                  attachments r)
          end
      end).
  { intros d. cbv zeta. unfold mistune_markdown.
    destruct (run_calls _ _) as [[outs r]|e]; monad; [|reflexivity].
    pose proof (render_authors_keys r) as Hr.
    destruct (iterate (authors r)) as [keys|e];
      cbn [mbind result_bind] in Hr.
    - now rewrite (layout_shape _ _ _ Hr).
    - unfold layout. now rewrite Hr. }
  destruct fm as [|m|v]; cbn [front_matter_dict]; unfold convtoconf; monad.
  - apply Hd.
  - apply Hd.
  - reflexivity.
Qed.

(** X8: [convtoconf] in closed form.  Front matter that is no mapping
    raises [AttributeError]; otherwise the callbacks run on a fresh
    renderer and their exception, if any, is the result; otherwise
    [author_keys] is iterated (a boolean raises [TypeError]) and the page
    is laid out from the flags the callbacks left, returned with the
    attachments they collected. *)
Theorem convtoconf_outcome (md : str) (fm : document) :
  convtoconf md fm =
  match front_matter_dict fm with
  | None => Raise AttributeError
  | Some d =>
      match run_calls (mistune_calls md)
              (new_renderer (dict_get d (lit "author_keys") (PyList []))
                            (dict_get d (lit "sidebar") (PyBool false))) with
      | Raise e => Raise e
      | Ok (outs, r) =>
          match iterate (authors r) with
          | Raise e => Raise e
          | Ok keys =>
              Ok (page_markup (has_toc r) (truthy (sidebar r))
                    (mistune_output md outs) (authors_fragment keys),
                  attachments r)
          end
      end
  end.
Proof. apply convtoconf_closed. Qed.

(** X9: [convtoconf] returns exactly when the front matter is [None] or a
    mapping, every callback the parser makes returns, and [author_keys]
    can be iterated: it is absent, [None], a string or a collection, and
    neither a boolean nor another scalar such as a number. *)
Theorem convtoconf_returns_iff (md : str) (fm : document) :
  (exists page atts, convtoconf md fm = Ok (page, atts)) <->
  exists d, front_matter_dict fm = Some d /\
            forallb call_returns (mistune_calls md) = true /\
            match d !! lit "author_keys" with
            | Some (PyBool _) | Some (PyScalar _) => False
            | Some PyNone | Some (PyStr _) | Some (PyList _) | None => True
            end.
Proof.
  rewrite convtoconf_closed. destruct (front_matter_dict fm) as [d|].
  - set (r0 := new_renderer _ _).
    assert (Hit : (exists keys, iterate (authors r0) = Ok keys) <->
                  match d !! lit "author_keys" with
                  | Some (PyBool _) | Some (PyScalar _) => False
                  | _ => True
                  end).
    { unfold r0, dict_get. cbn [new_renderer authors].
      destruct (d !! lit "author_keys") as [[| | | |]|]; cbn; split.
      all: try (intros [keys H]; discriminate H).
      all: try contradiction.
      all: try (intros _; exact I).
      all: intros _; eexists; reflexivity. }
    split.
    + intros (page & atts & H).
      destruct (run_calls (mistune_calls md) r0) as [[outs r]|e] eqn:Hrun;
        [|discriminate].
      exists d. split; [reflexivity|].
      split; [exact (run_calls_returns_inv _ _ _ _ Hrun)|].
      destruct (run_calls_state _ _ _ _ Hrun) as (_ & _ & Hsame & _).
      apply Hit. rewrite <- Hsame.
      destruct (iterate (authors r)) as [keys|e]; [|discriminate H].
      now exists keys.
    + intros (d' & [= <-] & Hcalls & Hkeys).
      destruct (run_calls_returns _ r0 Hcalls) as (outs & r & Hrun).
      rewrite Hrun.
      destruct (run_calls_state _ _ _ _ Hrun) as (_ & _ & Hsame & _).
      apply Hit in Hkeys as [keys Hk]. rewrite Hsame, Hk.
      eexists _, _; reflexivity.
  - split; [intros (page & atts & H); discriminate H|].
    intros (d & Hd & _). discriminate Hd.
Qed.

(** X10: [author_keys] that is no list.  A single string is rendered as
    one author per character; a boolean makes [render_authors], and so
    [convtoconf] once the callbacks have returned, raise [TypeError]. *)
Theorem author_keys_not_a_list :
  (forall r s, authors r = PyStr s ->
     render_authors r = Ok (authors_fragment (map (fun c => [c]) s))) /\
  (forall r b, authors r = PyBool b -> render_authors r = Raise TypeError) /\
  (forall md m b,
     m !! lit "author_keys" = Some (PyBool b) ->
     forallb call_returns (mistune_calls md) = true ->
     convtoconf md (DocMapping m) = Raise TypeError).
Proof.
  split; [|split].
  - intros r s H. now rewrite render_authors_keys, H.
  - intros r b H. now rewrite render_authors_keys, H.
  - intros md m b Hm Hcalls. rewrite convtoconf_closed.
    cbn [front_matter_dict]. unfold dict_get at 1. rewrite Hm. cbn [default].
    set (r0 := new_renderer _ _).
    destruct (run_calls_returns _ r0 Hcalls) as (outs & r & Hrun).
    rewrite Hrun.
    destruct (run_calls_state _ _ _ _ Hrun) as (_ & _ & Hsame & _).
    now rewrite Hsame.
Qed.


(** ** Images the module accepts *)







(** ** What of the front matter matters *)

Lemma dispatch_with_sidebar (v : pyval) (c : call) (r : renderer) :
  dispatch c (with_sidebar v r)
  = match dispatch c r with
    | Ok (out, r') => Ok (out, with_sidebar v r')
    | Raise e => Raise e
    end.
Proof.
  destruct c as [text level raw|code lang|src title alt_text];
    cbn [dispatch].
  - reflexivity.
  - now destruct (block_code code lang).
  - destruct (urlparse_netloc src) as [netloc|e] eqn:Hnet.
    + destruct (extract_height_width alt_text) as [[h w]|e] eqn:Hext.
      * rewrite !(image_shape _ _ _ _ _ _ _ Hnet Hext).
        now destruct (str_truthy netloc).
      * unfold image. now rewrite Hnet, Hext.
    + unfold image. now rewrite Hnet.
Qed.

Lemma run_calls_with_sidebar (v : pyval) (cs : list call) (r : renderer) :
  run_calls cs (with_sidebar v r)
  = match run_calls cs r with
    | Ok (outs, r') => Ok (outs, with_sidebar v r')
    | Raise e => Raise e
    end.
Proof.
  revert r. induction cs as [|c cs IH]; intros r; cbn [run_calls];
    [reflexivity|].
  rewrite dispatch_with_sidebar.
  destruct (dispatch c r) as [[out r1]|e]; monad; [|reflexivity].
  rewrite IH. now destruct (run_calls cs r1) as [[outs r2]|e].
Qed.

(** X11: of a front-matter mapping only [author_keys] and [sidebar]
    count: mappings that agree on the two give the same result, an
    [author_keys] of [None] counts as no entry, and [sidebar] counts
    through its truth value alone. *)
Theorem front_matter_keys (md : str) :
  (forall m1 m2 : gmap str pyval,
     m1 !! lit "author_keys" = m2 !! lit "author_keys" ->
     m1 !! lit "sidebar" = m2 !! lit "sidebar" ->
     convtoconf md (DocMapping m1) = convtoconf md (DocMapping m2)) /\
  (forall m : gmap str pyval,
     m !! lit "author_keys" = Some PyNone ->
     convtoconf md (DocMapping m)
     = convtoconf md (DocMapping (delete (lit "author_keys") m))) /\
  (forall (m : gmap str pyval) v1 v2,
     truthy v1 = truthy v2 ->
     convtoconf md (DocMapping (<[lit "sidebar" := v1]> m))
     = convtoconf md (DocMapping (<[lit "sidebar" := v2]> m))).
Proof.
  assert (Hne : lit "author_keys" <> lit "sidebar") by discriminate.
  assert (Hne' : lit "sidebar" <> lit "author_keys") by discriminate.
  split; [|split].
  - intros m1 m2 Ha Hs. unfold convtoconf, dict_get. monad.
    now rewrite Ha, Hs.
  - intros m Hm. unfold convtoconf, dict_get. monad.
    rewrite Hm, lookup_delete_eq, lookup_delete_ne by exact Hne.
    reflexivity.
  - intros m v1 v2 Hv. rewrite !convtoconf_closed.
    cbn [front_matter_dict]. unfold dict_get.
    rewrite !lookup_insert_eq, !lookup_insert_ne by exact Hne'.
    cbn [default].
    set (a := default (PyList []) (m !! lit "author_keys")).
    change (id v1) with v1. change (id v2) with v2.
    change (new_renderer a v1)
      with (with_sidebar v1 (new_renderer a (PyBool false))).
    change (new_renderer a v2)
      with (with_sidebar v2 (new_renderer a (PyBool false))).
    rewrite !run_calls_with_sidebar.
    destruct (run_calls _ _) as [[outs r]|e]; [|reflexivity].
    cbn [with_sidebar authors has_toc sidebar attachments].
    now rewrite Hv.
Qed.

(** ** A closer inside the code *)

Lemma take_until_truncates (code : str) :
  take_until CDATA_CLOSE (code ++ code_closing)
  = Some (default code (take_until CDATA_CLOSE code)).
Proof.
  induction code as [|c code IH]; [reflexivity|].
  cbn [app take_until].
  destruct (starts_with CDATA_CLOSE (c :: code)) eqn:Hs.
  - apply (starts_with_app _ _ code_closing) in Hs. cbn [app] in Hs.
    now rewrite Hs.
  - rewrite (starts_with_close_app c code) by exact Hs.
    rewrite IH. now destruct (take_until CDATA_CLOSE code).
Qed.

Lemma starts_with_split (p s : str) :
  starts_with p s = true -> exists rest, s = p ++ rest.
Proof.
  revert s. induction p as [|x p IH]; intros s H; [now exists s|].
  destruct s as [|y s]; [discriminate|].
  cbn [starts_with] in H. apply andb_prop in H as [Hxy H].
  apply N.eqb_eq in Hxy. subst y.
  destruct (IH _ H) as [rest ->]. now exists rest.
Qed.

Lemma take_until_split (p s pre : str) :
  take_until p s = Some pre -> exists rest, s = pre ++ p ++ rest.
Proof.
  revert pre. induction s as [|c s IH]; intros pre; cbn [take_until].
  - destruct (starts_with p []) eqn:Hs; [|discriminate].
    intros [= <-]. now apply starts_with_split.
  - destruct (starts_with p (c :: s)) eqn:Hs.
    + intros [= <-]. now apply starts_with_split.
    + destruct (take_until p s) as [pre'|]; [|discriminate].
      intros [= <-]. destruct (IH pre' eq_refl) as [rest ->].
      now exists rest.
Qed.

(** X13: the character data of a code macro is the code up to its first
    CDATA closer: the whole code when it holds none, and otherwise only
    what comes before the first one, the rest being cut off. *)
Theorem cdata_truncated (code : str) (lang : option str) :
  contains 60 (lang_or_empty lang) = false ->
  exists out,
    block_code code lang = Ok out /\
    plain_text_body out
    = Some (default code (take_until CDATA_CLOSE code)) /\
    (forall pre, take_until CDATA_CLOSE code = Some pre ->
       exists rest, code = pre ++ CDATA_CLOSE ++ rest).
Proof.
  intros Hlang. eexists. split; [apply format_code|]. split.
  - unfold plain_text_body. rewrite skip_to_code_opening by exact Hlang.
    apply take_until_truncates.
  - intros pre. apply take_until_split.
Qed.


(** ** What every page holds *)

Lemma authors_fragment_heading (keys : list str) :
  occurs (lit "<h1>Authors</h1>") (authors_fragment keys) = true.
Proof.
  assert (H : starts_with (lit "<h1>Authors</h1>") (authors_fragment keys)
              = true) by reflexivity.
  destruct (authors_fragment keys); cbn [occurs]; now rewrite H.
Qed.

Lemma column_macro_split (width content : str) :
  exists before after, column_macro width content = before ++ content ++ after.
Proof.
  unfold column_macro.
  match goal with
  | |- exists before after, ?a ++ ?w ++ ?b ++ ?c ++ ?z = _ =>
      exists (a ++ w ++ b), z
  end.
  now rewrite <- !app_assoc.
Qed.

(** X14: every page [convtoconf] returns holds the Authors heading, with
    or without authors, and holds the text the parser built from the
    fragments of the callbacks as one piece, unchanged. *)
Theorem page_holds_authors_and_body (md : str) (fm : document) (page : str)
    (atts : list str) :
  convtoconf md fm = Ok (page, atts) ->
  occurs (lit "<h1>Authors</h1>") page = true /\
  exists d outs r before after,
    front_matter_dict fm = Some d /\
    run_calls (mistune_calls md)
      (new_renderer (dict_get d (lit "author_keys") (PyList []))
                    (dict_get d (lit "sidebar") (PyBool false)))
    = Ok (outs, r) /\
    page = before ++ mistune_output md outs ++ after.
Proof.
  intros Hconv.
  destruct (convtoconf_inv _ _ _ _ Hconv)
    as (d & outs & r & Hd & Hrun & Hlay & _).
  destruct (layout_inv _ _ _ Hlay) as (authors_html & Hauth & ->).
  rewrite render_authors_keys in Hauth.
  destruct (iterate (authors r)) as [keys|e]; [|discriminate Hauth].
  injection Hauth as <-.
  pose proof (authors_fragment_heading keys) as Hocc.
  unfold page_markup. split.
  - destruct (truthy (sidebar r)).
    + apply occurs_app_l. unfold column_macro.
      do 3 apply occurs_app_r. apply occurs_app_l. now apply occurs_app_r.
    + now do 2 apply occurs_app_r.
  - exists d, outs, r. destruct (truthy (sidebar r)).
    + destruct (column_macro_split (lit "800px") (mistune_output md outs))
        as (before & after & ->).
      eexists (_ ++ before), after.
      split; [exact Hd|]. split; [exact Hrun|].
      now rewrite <- app_assoc.
    + eexists _, _. split; [exact Hd|]. split; [exact Hrun|]. reflexivity.
Qed.


End Convert.

(** * The module on concrete posts *)

(** ** The reference [int] accepts no brace *)

Lemma isspace_plain (c : N) :
  isspace c = true -> c <> LBRACE /\ c <> RBRACE.
Proof. split; intros ->; discriminate H. Qed.

Lemma lstrip_split (s : str) :
  exists ws, s = ws ++ lstrip s /\ Forall (fun c => isspace c = true) ws.
Proof.
  induction s as [|c s (ws & Hs & Hws)]; [now exists []|].
  cbn [lstrip]. destruct (isspace c) eqn:Hc.
  - exists (c :: ws). split; [cbn; congruence | now constructor].
  - now exists [].
Qed.

Lemma strip_split (s : str) :
  exists ws1 ws2, s = ws1 ++ strip s ++ ws2 /\
    Forall (fun c => isspace c = true) ws1 /\
    Forall (fun c => isspace c = true) ws2.
Proof.
  destruct (lstrip_split s) as (ws1 & Hs & H1).
  destruct (lstrip_split (rev (lstrip s))) as (ws2 & Hr & H2).
  exists ws1, (rev ws2). repeat split; [|exact H1|now apply List.Forall_rev].
  unfold strip, rstrip. rewrite <- rev_app_distr, <- Hr, rev_involutive.
  exact Hs.
Qed.

Lemma digits_ok_plain (after_digit : bool) (s : str) :
  digits_ok after_digit s = true -> plain s.
Proof.
  revert after_digit. induction s as [|c s IH]; intros b H; [constructor|].
  cbn [digits_ok] in H. destruct (is_digit c) eqn:Hd.
  - constructor; [|exact (IH _ H)].
    unfold is_digit in Hd. apply andb_prop in Hd as [_ Hd].
    apply N.leb_le in Hd. unfold LBRACE, RBRACE. lia.
  - destruct (c =? 95) eqn:Hu; [|discriminate].
    apply andb_prop in H as [_ H]. apply N.eqb_eq in Hu.
    constructor; [|exact (IH _ H)]. unfold LBRACE, RBRACE. lia.
Qed.

Lemma ascii_int_plain (s : str) : ascii_int_ok s = true -> plain s.
Proof.
  intros H. destruct (strip_split s) as (ws1 & ws2 & Hs & H1 & H2).
  assert (Hws : forall ws, Forall (fun c => isspace c = true) ws -> plain ws).
  { intros ws Hall. eapply List.Forall_impl; [|exact Hall].
    intros c. apply isspace_plain. }
  rewrite Hs. apply plain_app; [now apply Hws|].
  apply plain_app; [|now apply Hws].
  unfold ascii_int_ok in H. destruct (strip s) as [|c t]; [constructor|].
  destruct ((c =? 43) || (c =? 45)) eqn:Hsign.
  - constructor; [|exact (digits_ok_plain _ _ H)].
    apply orb_prop in Hsign as [E|E]; apply N.eqb_eq in E;
      unfold LBRACE, RBRACE; lia.
  - exact (digits_ok_plain _ _ H).
Qed.

(** ** Size hints of the alt text *)

Example size_hint_height :
  extract_height_width ascii_int_ok (lit "caption|300")
  = Ok (Some (lit "300"), None).
Proof. reflexivity. Qed.

Example size_hint_height_width :
  extract_height_width ascii_int_ok (lit "caption|200x400")
  = Ok (Some (lit "200"), Some (lit "400")).
Proof. reflexivity. Qed.

Example size_hint_refused :
  extract_height_width ascii_int_ok (lit "caption|abc") = Ok (None, None).
Proof. reflexivity. Qed.

(** Any [int] leaves a segment with two [x] to the failing unpacking. *)
Example size_hint_two_x (int_ok : str -> bool) :
  extract_height_width int_ok (lit "caption|1x2x3") = Raise ValueError.
Proof.
  apply (extract_two_x int_ok _ (lit "1") (lit "2") (lit "3")). reflexivity.
Qed.


(** ** The front-matter split on concrete posts *)

(** A post without any delimiter line is all metadata. *)
Lemma parse_without_delimiter_witness :
  split_front_matter (text_of_lines [lit "title: x"; lit "body"])
  = (text_of_lines [lit "title: x"; lit "body"], []) /\
  parse (yaml_load_table []) (text_of_lines [lit "title: x"; lit "body"])
  = (front_matter ← yaml_load_table [] (text_of_lines [lit "title: x"; lit "body"]);
     Ok (front_matter, [])).
Proof.
  apply (parse_without_delimiter (yaml_load_table [])
           (text_of_lines [lit "title: x"; lit "body"])).
  intros line Hin. vm_compute in Hin.
  destruct Hin as [<-|[<-|[]]]; vm_compute; discriminate.
Defined.

(** A post opened and closed by a delimiter line. *)
Lemma parse_delimited_block_witness :
  split_front_matter (text_of_lines [lit "---"; lit "sidebar: true"; lit "---"; lit "# Title"])
  = (text_of_lines [lit "---"; lit "sidebar: true"], lit "# Title").
Proof.
  apply (parse_delimited_block (yaml_load_table [])
           (text_of_lines [lit "---"; lit "sidebar: true"; lit "---"; lit "# Title"])
           (text_of_lines [lit "---"]) (text_of_lines [lit "---"])
           [text_of_lines [lit "sidebar: true"]] [text_of_lines [lit "# Title"]]).
  - vm_compute. reflexivity.
  - vm_compute. reflexivity.
  - constructor; [vm_compute; discriminate | constructor].
  - vm_compute. reflexivity.
Defined.

(** C2 as stated fails: the first delimiter line is part of the metadata
    buffer, which therefore is not the text between the two delimiter
    lines. *)
Lemma parse_keeps_first_delimiter :
  let text := text_of_lines [lit "---"; lit "a: 1"; lit "---"; lit "body"] in
  readlines text
  = [text_of_lines [lit "---"]; text_of_lines [lit "a: 1"]; text_of_lines [lit "---"];
     text_of_lines [lit "body"]] /\
  fst (split_front_matter text) = text_of_lines [lit "---"; lit "a: 1"] /\
  fst (split_front_matter text) <> text_of_lines [lit "a: 1"] /\
  snd (split_front_matter text) = lit "body".
Proof.
  vm_compute. repeat split; discriminate.
Qed.

(** A later delimiter line stays in the body. *)
Example parse_later_delimiter :
  split_front_matter
    (text_of_lines [lit "a: 1"; lit "---"; lit "one"; lit "---"; lit "two"])
  = (text_of_lines [lit "a: 1"], lit "one" ++ [NL] ++ lit "---" ++ [NL] ++ lit "two").
Proof. vm_compute. reflexivity. Qed.

(** ** The size hint on concrete alt texts *)

(** Height and width around the one [x]. *)
Lemma extract_height_width_one_x_witness :
  extract_height_width ascii_int_ok (lit "caption|200x400")
  = Ok (Some (lit "200"), Some (lit "400")).
Proof.
  exact (proj1 (proj2 (proj2 (proj2
           (extract_height_width_one_x urlsplit_netloc ascii_int_ok
              ascii_int_plain (lit "caption|200x400")))))
           (lit "200") (lit "400") eq_refl eq_refl eq_refl).
Defined.

(** C3 as stated fails: [int] accepts a negative number and zero, which
    are kept and emitted, and a segment with two [x] raises. *)
Lemma size_hint_not_positive :
  extract_height_width ascii_int_ok (lit "caption|-5")
  = Ok (Some (lit "-5"), None) /\
  extract_height_width ascii_int_ok (lit "caption|0x-1")
  = Ok (Some (lit "0"), Some (lit "-1")) /\
  image urlsplit_netloc ascii_int_ok (lit "a.png") None (lit "caption|-5")
        (new_renderer PyNone PyNone)
  = Ok (lit "<ac:image ac:height='-5'><ri:attachment ri:filename='a.png' /></ac:image>",
        {| attachments := [lit "a.png"]; authors := PyList [];
           has_toc := false; sidebar := PyNone |}) /\
  extract_height_width ascii_int_ok (lit "caption|1x2x3") = Raise ValueError /\
  image urlsplit_netloc ascii_int_ok (lit "a.png") None (lit "caption|1x2x3")
        (new_renderer PyNone PyNone)
  = Raise ValueError.
Proof. vm_compute. repeat split. Qed.

(** ** The code macro on concrete code *)

Lemma block_code_cdata_witness :
  plain_text_body
    (code_opening (lit "python") ++ lit "print(1)" ++ code_closing)
  = Some (lit "print(1)").
Proof.
  apply (proj2 (proj2 (block_code_cdata (lit "print(1)") (Some (lit "python"))))).
  - vm_compute. reflexivity.
  - vm_compute. reflexivity.
Defined.

(** C5 as stated fails: a closer inside the code is copied as it is and
    ends the character data early. *)
Lemma block_code_closer_in_code :
  block_code (lit "a]]>b") None
  = Ok (code_opening [] ++ lit "a]]>b" ++ code_closing) /\
  plain_text_body (code_opening [] ++ lit "a]]>b" ++ code_closing)
  = Some (lit "a") /\
  plain_text_body (code_opening [] ++ lit "a]]>b" ++ code_closing)
  <> Some (lit "a]]>b").
Proof. vm_compute. repeat split; discriminate. Qed.

(** ** Whole conversions *)

(** The attachments of the gallery post: the local image, twice. *)
Lemma image_attachments_witness :
  exists page atts,
    convtoconf urlsplit_netloc ascii_int_ok mistune_header
      (calls_of gallery_calls) output_concat [] DocNone = Ok (page, atts) /\
    atts = local_srcs urlsplit_netloc gallery_calls /\
    atts = [lit "images/pic.png"; lit "images/pic.png"].
Proof.
  destruct (convtoconf urlsplit_netloc ascii_int_ok mistune_header
              (calls_of gallery_calls) output_concat [] DocNone)
    as [[page atts]|e] eqn:H; [|vm_compute in H; discriminate H].
  exists page, atts. split; [reflexivity|].
  pose proof (proj1 (proj2 (proj2 (proj2
                (image_attachments urlsplit_netloc ascii_int_ok
                   ascii_int_plain mistune_header (calls_of gallery_calls)
                   output_concat)))) [] DocNone page atts H) as Hatts.
  split; [exact Hatts|]. rewrite Hatts. vm_compute. reflexivity.
Defined.

(** The gallery post has a header, so its page holds the [toc] macro. *)
Lemma toc_iff_header_witness :
  exists page atts,
    convtoconf urlsplit_netloc ascii_int_ok mistune_header
      (calls_of gallery_calls) output_concat [] DocNone = Ok (page, atts) /\
    occurs toc_macro page = true.
Proof.
  destruct (convtoconf urlsplit_netloc ascii_int_ok mistune_header
              (calls_of gallery_calls) output_concat [] DocNone)
    as [[page atts]|e] eqn:H; [|vm_compute in H; discriminate H].
  exists page, atts. split; [reflexivity|].
  destruct (toc_iff_header urlsplit_netloc ascii_int_ok ascii_int_plain
              mistune_header (calls_of gallery_calls) output_concat
              [] DocNone page atts H)
    as (d & outs & r & authors_html & _ & _ & _ & Hiff & _ & Hpos & _ & _).
  apply Hpos, Hiff. exists (lit "Title"), 1, None. left. reflexivity.
Defined.

(** The snippet post has no header: no TOC fragment in its page. *)
Example snippet_without_toc :
  convtoconf urlsplit_netloc ascii_int_ok mistune_header
    (calls_of snippet_calls) output_concat [] DocNone
  = Ok (code_opening (lit "python") ++ lit "print(1)" ++ code_closing
        ++ lit "<h1>Authors</h1><p></p>", []).
Proof. vm_compute. reflexivity. Qed.

(** Without front matter the snippet post is converted with the
    defaults. *)
Lemma front_matter_defaults_witness :
  exists page atts,
    convtoconf urlsplit_netloc ascii_int_ok mistune_header
      (calls_of snippet_calls) output_concat [] DocNone = Ok (page, atts).
Proof.
  apply (front_matter_defaults (yaml_load_table []) urlsplit_netloc
           ascii_int_ok ascii_int_plain mistune_header
           (calls_of snippet_calls) output_concat []).
  vm_compute. reflexivity.
Defined.

(** C4 as stated fails: a metadata block the loader refuses makes [parse]
    raise, and a post without front matter, loaded as a plain scalar,
    makes [convtoconf] raise. *)
Lemma parse_raises_on_malformed_front_matter :
  parse (yaml_load_table
           [(text_of_lines [lit "key: [unclosed"], Raise YAMLError)])
        (text_of_lines [lit "key: [unclosed"; lit "---"; lit "body"])
  = Raise YAMLError /\
  parse (yaml_load_table
           [(text_of_lines [lit "Hello"], Ok (DocOther (PyStr (lit "Hello"))))])
        (text_of_lines [lit "Hello"])
  = Ok (DocOther (PyStr (lit "Hello")), []) /\
  convtoconf urlsplit_netloc ascii_int_ok mistune_header
    (calls_of []) output_concat [] (DocOther (PyStr (lit "Hello")))
  = Raise AttributeError.
Proof. vm_compute. repeat split. Qed.

(** * Further properties of the module *)

(** ** Trimming *)

Lemma lstrip_spaces (ws s : str) :
  Forall (fun c => isspace c = true) ws -> lstrip (ws ++ s) = lstrip s.
Proof.
  induction 1 as [|c ws Hc _ IH]; [reflexivity|].
  cbn [app lstrip]. now rewrite Hc.
Qed.

Lemma lstrip_head (s rest : str) (c : N) :
  lstrip s = c :: rest -> isspace c = false.
Proof.
  induction s as [|x s IH]; [discriminate|].
  cbn [lstrip]. destruct (isspace x) eqn:Hx; [exact IH|].
  now intros [= <- _].
Qed.

Lemma lstrip_fixed (s : str) :
  (forall c rest, s = c :: rest -> isspace c = false) -> lstrip s = s.
Proof.
  destruct s as [|c s]; intros H; [reflexivity|].
  cbn [lstrip]. now rewrite (H c s eq_refl).
Qed.

Lemma rstrip_split (s : str) :
  exists ws, s = rstrip s ++ ws /\ Forall (fun c => isspace c = true) ws.
Proof.
  destruct (lstrip_split (rev s)) as (ws & Hs & Hws).
  exists (rev ws). split; [|now apply List.Forall_rev].
  unfold rstrip. rewrite <- rev_app_distr, <- Hs. now rewrite rev_involutive.
Qed.

Lemma rstrip_last (s init : str) (c : N) :
  rstrip s = init ++ [c] -> isspace c = false.
Proof.
  unfold rstrip. intros H. apply (f_equal (@rev N)) in H.
  rewrite rev_involutive, rev_app_distr in H. cbn in H.
  exact (lstrip_head _ _ _ H).
Qed.

(** What [strip] returns neither starts nor ends with whitespace, and
    trimming it again changes nothing. *)
Lemma strip_trimmed (s : str) :
  (forall c rest, strip s = c :: rest -> isspace c = false) /\
  (forall c init, strip s = init ++ [c] -> isspace c = false) /\
  strip (strip s) = strip s.
Proof.
  assert (Hhead : forall c rest, strip s = c :: rest -> isspace c = false).
  { intros c rest H. unfold strip in H.
    destruct (rstrip_split (lstrip s)) as (ws & Hs & _).
    rewrite H in Hs. exact (lstrip_head _ _ _ Hs). }
  assert (Hlast : forall c init, strip s = init ++ [c] -> isspace c = false).
  { intros c init H. exact (rstrip_last _ _ _ H). }
  split; [exact Hhead|]. split; [exact Hlast|].
  unfold strip at 1. rewrite (lstrip_fixed (strip s)) by exact Hhead.
  unfold rstrip. rewrite lstrip_fixed; [apply rev_involutive|].
  intros c rest H. apply (f_equal (@rev N)) in H.
  rewrite rev_involutive in H. cbn [rev] in H.
  exact (Hlast _ _ H).
Qed.

(** X3: the body that the front-matter split returns is trimmed: it
    neither starts nor ends with a whitespace character, and trimming it
    again gives the same text. *)
Theorem parse_body_trimmed (text : str) :
  let body := snd (split_front_matter text) in
  (forall c rest, body = c :: rest -> isspace c = false) /\
  (forall c init, body = init ++ [c] -> isspace c = false) /\
  strip body = body.
Proof. unfold split_front_matter. cbn [snd]. apply strip_trimmed. Qed.

(** X2: the lines that can close the metadata block are exactly the
    delimiter [---] with nothing but whitespace before and after it. *)
Theorem boundary_line (line : str) :
  strip line = YAML_BOUNDARY <->
  exists ws1 ws2,
    line = ws1 ++ YAML_BOUNDARY ++ ws2 /\
    Forall (fun c => isspace c = true) ws1 /\
    Forall (fun c => isspace c = true) ws2.
Proof.
  split.
  - intros H. destruct (strip_split line) as (ws1 & ws2 & Hl & H1 & H2).
    exists ws1, ws2. now rewrite <- H.
  - intros (ws1 & ws2 & -> & H1 & H2). unfold strip.
    rewrite lstrip_spaces by exact H1.
    change (lstrip (YAML_BOUNDARY ++ ws2)) with (YAML_BOUNDARY ++ ws2).
    unfold rstrip. rewrite rev_app_distr.
    rewrite lstrip_spaces by now apply List.Forall_rev.
    reflexivity.
Qed.

(** ** A metadata block that is never closed *)

Lemma concat_nonempty_nil (ls : list str) :
  Forall (fun l => l <> []) ls -> concat ls = [] -> ls = [].
Proof.
  destruct 1 as [|l ls Hl _]; [reflexivity|].
  cbn [concat]. intros H. apply app_eq_nil in H as [H _]. contradiction.
Qed.

(** X1: the metadata block stays open to the end of the post exactly when
    no line but the first is a delimiter line; the whole text is then the
    metadata buffer and the body is empty, whatever follows an opening
    delimiter. *)
Theorem parse_never_closes (text : str) :
  (in_yaml (parse_lines (readlines text)) = true <->
   forall b1 l b2, readlines text = b1 ++ l :: b2 ->
     strip l = YAML_BOUNDARY -> b1 = []) /\
  (in_yaml (parse_lines (readlines text)) = true ->
   split_front_matter text = (text, [])).
Proof.
  pose proof (readlines_nonempty text) as Hne.
  destruct (fold_open (readlines text) parse_init eq_refl)
    as [(Hin & Hr & Hm & Hno)
       |(before & d & after & Hl & Hd & Hraw & _ & Hin & _)];
    fold (parse_lines (readlines text)) in *; cbn [raw_yaml markdown parse_init] in *.
  - split; [split; [intros _|intros _; exact Hin]|].
    + intros b1 l b2 Heq Hb.
      specialize (Hno b1 l b2 Heq Hb). cbn [app] in Hno.
      apply concat_nonempty_nil; [|exact Hno].
      rewrite Heq in Hne. now apply List.Forall_app in Hne as [Hne _].
    + intros _. unfold split_front_matter.
      rewrite Hr, Hm, readlines_concat. reflexivity.
  - rewrite Hin. split; [split|]; try discriminate.
    intros Hall. specialize (Hall before d after Hl Hd). subst before.
    now contradiction Hraw.
Qed.

(** ** Further properties on concrete posts *)

(** An alt text without [|] and with two [x] makes the image raise. *)
Lemma image_raises_iff_witness :
  image urlsplit_netloc ascii_int_ok (lit "a.png") None (lit "Fix syntax")
        (new_renderer PyNone PyNone)
  = Raise ValueError.
Proof.
  apply (proj2 (image_raises_iff urlsplit_netloc ascii_int_ok ascii_int_plain
                  (lit "a.png") None (lit "Fix syntax")
                  (new_renderer PyNone PyNone) ValueError)).
  right. split.
  - exists []. vm_compute. reflexivity.
  - vm_compute. reflexivity.
Defined.

(** The gallery post gives four fragments and leaves the authors alone. *)
Lemma callbacks_frame_witness :
  exists outs r',
    run_calls urlsplit_netloc ascii_int_ok mistune_header gallery_calls
      (new_renderer PyNone (PyBool true)) = Ok (outs, r') /\
    List.length outs = 4%nat /\
    authors r' = PyList [] /\ sidebar r' = PyBool true.
Proof.
  destruct (run_calls urlsplit_netloc ascii_int_ok mistune_header
              gallery_calls (new_renderer PyNone (PyBool true)))
    as [[outs r']|e] eqn:H; [|vm_compute in H; discriminate H].
  exists outs, r'. split; [reflexivity|].
  destruct (callbacks_frame urlsplit_netloc ascii_int_ok ascii_int_plain
              mistune_header gallery_calls _ r' outs H)
    as (Hlen & Hau & Hsb & _).
  split; [exact Hlen|]. split; [exact Hau | exact Hsb].
Defined.

(** The gallery post without front matter is converted. *)
Lemma convtoconf_returns_iff_witness :
  exists page atts,
    convtoconf urlsplit_netloc ascii_int_ok mistune_header
      (calls_of gallery_calls) output_concat [] DocNone = Ok (page, atts).
Proof.
  apply (proj2 (convtoconf_returns_iff urlsplit_netloc ascii_int_ok
                  ascii_int_plain mistune_header (calls_of gallery_calls)
                  output_concat [] DocNone)).
  exists ∅. split; [reflexivity|]. split; [vm_compute; reflexivity|].
  rewrite lookup_empty. exact I.
Defined.

(** A boolean [author_keys] raises once the callbacks have returned. *)
Lemma author_keys_not_a_list_witness :
  convtoconf urlsplit_netloc ascii_int_ok mistune_header
    (calls_of gallery_calls) output_concat []
    (DocMapping (<[lit "author_keys" := PyBool true]> ∅))
  = Raise TypeError.
Proof.
  apply (proj2 (proj2 (author_keys_not_a_list urlsplit_netloc ascii_int_ok
                         ascii_int_plain mistune_header
                         (calls_of gallery_calls) output_concat))
           [] _ true).
  - apply lookup_insert_eq.
  - vm_compute. reflexivity.
Defined.

(** A [sidebar] given as a non-empty string counts as true. *)
Lemma front_matter_keys_witness :
  convtoconf urlsplit_netloc ascii_int_ok mistune_header
    (calls_of gallery_calls) output_concat []
    (DocMapping (<[lit "sidebar" := PyStr (lit "no")]> ∅))
  = convtoconf urlsplit_netloc ascii_int_ok mistune_header
      (calls_of gallery_calls) output_concat []
      (DocMapping (<[lit "sidebar" := PyBool true]> ∅)).
Proof.
  apply (proj2 (proj2 (front_matter_keys urlsplit_netloc ascii_int_ok
                         ascii_int_plain mistune_header
                         (calls_of gallery_calls) output_concat []))).
  reflexivity.
Defined.

(** The code after the first closer is cut off. *)
Lemma cdata_truncated_witness :
  exists out,
    block_code (lit "a]]>b]]>c") None = Ok out /\
    plain_text_body out = Some (lit "a").
Proof.
  destruct (cdata_truncated (lit "a]]>b]]>c") None eq_refl)
    as (out & Hout & Hbody & _).
  exists out. split; [exact Hout | exact Hbody].
Defined.

(** The page of the snippet post holds the Authors heading. *)
Lemma page_holds_authors_and_body_witness :
  exists page atts,
    convtoconf urlsplit_netloc ascii_int_ok mistune_header
      (calls_of snippet_calls) output_concat [] DocNone = Ok (page, atts) /\
    occurs (lit "<h1>Authors</h1>") page = true.
Proof.
  destruct (convtoconf urlsplit_netloc ascii_int_ok mistune_header
              (calls_of snippet_calls) output_concat [] DocNone)
    as [[page atts]|e] eqn:H; [|vm_compute in H; discriminate H].
  exists page, atts. split; [reflexivity|].
  exact (proj1 (page_holds_authors_and_body urlsplit_netloc ascii_int_ok
                  mistune_header (calls_of snippet_calls) output_concat
                  [] DocNone page atts H)).
Defined.

(** ** Images the module accepts, and images it does not *)


